(** * gotldextract: splitting a host name into subdomain, domain and public suffix

    A shallow embedding of [tldextract.go] (package [gotldextract]) and the
    properties of its normaliser [cleanDomain], of [Extract] and of the two
    accessors of [Result].

    Go strings are modelled as [string] (sequences of 8-bit characters), Go's
    [int] and [rune] as [Z].  The functions of Go's [strings], [unicode/utf8]
    and [unicode] packages that the source calls are modelled by what their
    documentation says they return.  [strings.ToLower] and [strings.ToUpper]
    map the bytes of an ASCII string and the runes of any other string; the
    case tables of the [unicode] package that they consult above U+007F are
    data of Go's standard library and are a parameter of the development
    ([unicode.CaseTables]). *)

From Stdlib Require Import Bool Arith ZArith Lia List Ascii String.
Import ListNotations.

Local Open Scope string_scope.
Local Open Scope Z_scope.

(** ** Go's [unicode/utf8] package *)

Module utf8.

Definition RuneError : Z := 0xFFFD.
Definition RuneSelf : Z := 0x80.
Definition MaxRune : Z := 0x10FFFF.
Definition surrogateMin : Z := 0xD800.
Definition surrogateMax : Z := 0xDFFF.
Definition locb : Z := 0x80.
Definition hicb : Z := 0xBF.

(** A byte of a string as a number, and back. *)
Definition byte (c : ascii) : Z := Z.of_nat (nat_of_ascii c).
Definition of_byte (b : Z) : ascii := ascii_of_nat (Z.to_nat b).

(** [func ValidRune(r rune) bool]: in range and not a surrogate half. *)
Definition ValidRune (r : Z) : bool :=
  (0 <=? r) && (r <=? MaxRune)
  && negb ((surrogateMin <=? r) && (r <=? surrogateMax)).

(** [func DecodeRuneInString(s string) (rune, int)]: the first rune of [s] and
    its width in bytes; [(RuneError, 0)] for the empty string and
    [(RuneError, 1)] for a byte that starts no well-formed sequence (a stray
    continuation byte, an overlong form, a surrogate, a value above
    [MaxRune], a sequence cut short).  The masks [s0 & mask] are written
    [s0 mod 2^k] and the shifts as multiplications. *)
Definition DecodeRuneInString (s : string) : Z * Z :=
  match s with
  | EmptyString => (RuneError, 0)
  | String c0 t0 =>
      let s0 := byte c0 in
      if s0 <? RuneSelf then (s0, 1)
      else if (s0 <? 0xC2) || (0xF4 <? s0) then (RuneError, 1)
      else
        let lo := if s0 =? 0xE0 then 0xA0 else if s0 =? 0xF0 then 0x90 else locb in
        let hi := if s0 =? 0xED then 0x9F else if s0 =? 0xF4 then 0x8F else hicb in
        match t0 with
        | EmptyString => (RuneError, 1)
        | String c1 t1 =>
            let s1 := byte c1 in
            if (s1 <? lo) || (hi <? s1) then (RuneError, 1)
            else if s0 <? 0xE0 then ((s0 mod 32) * 64 + s1 mod 64, 2)
            else
              match t1 with
              | EmptyString => (RuneError, 1)
              | String c2 t2 =>
                  let s2 := byte c2 in
                  if (s2 <? locb) || (hicb <? s2) then (RuneError, 1)
                  else if s0 <? 0xF0 then
                    ((s0 mod 16) * 4096 + (s1 mod 64) * 64 + s2 mod 64, 3)
                  else
                    match t2 with
                    | EmptyString => (RuneError, 1)
                    | String c3 _ =>
                        let s3 := byte c3 in
                        if (s3 <? locb) || (hicb <? s3) then (RuneError, 1)
                        else
                          ((s0 mod 8) * 262144 + (s1 mod 64) * 4096
                           + (s2 mod 64) * 64 + s3 mod 64, 4)
                    end
              end
        end
  end.

Definition bytes1 (b0 : Z) : string := String (of_byte b0) EmptyString.
Definition bytes2 (b0 b1 : Z) : string := String (of_byte b0) (bytes1 b1).
Definition bytes3 (b0 b1 b2 : Z) : string := String (of_byte b0) (bytes2 b1 b2).
Definition bytes4 (b0 b1 b2 b3 : Z) : string :=
  String (of_byte b0) (bytes3 b1 b2 b3).

(** [func AppendRune(p []byte, r rune) []byte], the bytes appended: one to
    four bytes for a valid rune, the three bytes of [RuneError] for any other
    value. *)
Definition EncodeRune (r : Z) : string :=
  if (0 <=? r) && (r <=? 0x7F) then bytes1 r
  else if (0 <=? r) && (r <=? 0x7FF) then
    bytes2 (0xC0 + r / 64) (0x80 + r mod 64)
  else if negb (ValidRune r) then
    bytes3 (0xE0 + RuneError / 4096) (0x80 + (RuneError / 64) mod 64)
           (0x80 + RuneError mod 64)
  else if r <=? 0xFFFF then
    bytes3 (0xE0 + r / 4096) (0x80 + (r / 64) mod 64) (0x80 + r mod 64)
  else
    bytes4 (0xF0 + r / 262144) (0x80 + (r / 4096) mod 64)
           (0x80 + (r / 64) mod 64) (0x80 + r mod 64).

End utf8.

(** ** Go's [unicode] package *)

Module unicode.

Definition MaxASCII : Z := 0x7F.

(** The case tables: [unicode.To(unicode.LowerCase, r)] and
    [unicode.To(unicode.UpperCase, r)], which [ToLower] and [ToUpper] consult
    for a rune above [MaxASCII].  They are data of Go's standard library. *)
Class CaseTables : Type := {
  lowerCase : Z -> Z;
  upperCase : Z -> Z
}.

(** [func ToLower(r rune) rune] *)
Definition ToLower `{CaseTables} (r : Z) : Z :=
  if r <=? MaxASCII then
    if (65 <=? r) && (r <=? 90) then r + (97 - 65) else r
  else lowerCase r.

(** [func ToUpper(r rune) rune] *)
Definition ToUpper `{CaseTables} (r : Z) : Z :=
  if r <=? MaxASCII then
    if (97 <=? r) && (r <=? 122) then r - (97 - 65) else r
  else upperCase r.

(** What the development needs of the lower-case table: it maps valid runes
    to valid runes, mapping twice is mapping once, and no rune above
    [MaxASCII] becomes ".", "/" or ":". *)
Class LowerCaseLaws (T : CaseTables) : Prop := {
  lowerCase_valid : forall r,
    MaxASCII < r -> utf8.ValidRune r = true -> utf8.ValidRune (lowerCase r) = true;
  lowerCase_idem : forall r,
    MaxASCII < r -> utf8.ValidRune r = true -> ToLower (lowerCase r) = lowerCase r;
  lowerCase_separator : forall r,
    MaxASCII < r -> utf8.ValidRune r = true ->
    lowerCase r <> 46 /\ lowerCase r <> 47 /\ lowerCase r <> 58
}.

(** An excerpt of the tables of Go's [unicode] package: the simple case
    mappings of U+0080 to U+017F (Latin-1 Supplement and Latin Extended-A).
    It leaves the runes from U+0180 on alone, so it stands for Go's tables on
    the strings whose runes lie below U+0180; it serves to evaluate the
    functions at concrete inputs, while the theorems hold over any tables. *)
Definition latinLower (r : Z) : Z :=
  if ((0xC0 <=? r) && (r <=? 0xD6)) || ((0xD8 <=? r) && (r <=? 0xDE)) then r + 32
  else if r =? 0x130 then 0x69
  else if r =? 0x178 then 0xFF
  else if (((0x100 <=? r) && (r <=? 0x12F)) || ((0x132 <=? r) && (r <=? 0x137))
           || ((0x14A <=? r) && (r <=? 0x177))) && Z.even r then r + 1
  else if (((0x139 <=? r) && (r <=? 0x148)) || ((0x179 <=? r) && (r <=? 0x17E)))
          && Z.odd r then r + 1
  else r.

Definition latinUpper (r : Z) : Z :=
  if r =? 0xB5 then 0x39C
  else if ((0xE0 <=? r) && (r <=? 0xF6)) || ((0xF8 <=? r) && (r <=? 0xFE)) then r - 32
  else if r =? 0xFF then 0x178
  else if r =? 0x131 then 0x49
  else if r =? 0x17F then 0x53
  else if (((0x100 <=? r) && (r <=? 0x12F)) || ((0x132 <=? r) && (r <=? 0x137))
           || ((0x14A <=? r) && (r <=? 0x177))) && Z.odd r then r - 1
  else if (((0x139 <=? r) && (r <=? 0x148)) || ((0x179 <=? r) && (r <=? 0x17E)))
          && Z.even r then r - 1
  else r.

Definition latin : CaseTables :=
  {| lowerCase := latinLower; upperCase := latinUpper |}.

End unicode.

(** ** Go's [strings] package *)

Module strings.

(** [len(s)] *)
Definition len (s : string) : Z := Z.of_nat (String.length s).

(** [s[:n]] for [0 <= n <= len(s)] *)
Fixpoint take (n : nat) (s : string) : string :=
  match n, s with
  | S n', String c s' => String c (take n' s')
  | _, _ => EmptyString
  end.

(** [s[n:]] for [0 <= n <= len(s)] *)
Fixpoint drop (n : nat) (s : string) : string :=
  match n, s with
  | S n', String _ s' => drop n' s'
  | _, _ => s
  end.

Definition slice_to (s : string) (i : Z) : string := take (Z.to_nat i) s.
Definition slice_from (s : string) (i : Z) : string := drop (Z.to_nat i) s.

(** [func HasPrefix(s, prefix string) bool]:
    [len(s) >= len(prefix) && s[:len(prefix)] == prefix] *)
Definition HasPrefix (s prefix : string) : bool :=
  (len prefix <=? len s) && String.eqb (slice_to s (len prefix)) prefix.

(** [func HasSuffix(s, suffix string) bool]:
    [len(s) >= len(suffix) && s[len(s)-len(suffix):] == suffix] *)
Definition HasSuffix (s suffix : string) : bool :=
  (len suffix <=? len s) && String.eqb (slice_from s (len s - len suffix)) suffix.

(** [func Index(s, substr string) int]: the index of the first instance of
    [substr] in [s], or -1 if [substr] is not present in [s]. *)
Fixpoint Index (s substr : string) : Z :=
  if HasPrefix s substr then 0
  else match s with
       | EmptyString => -1
       | String _ s' =>
           let i := Index s' substr in
           if i <? 0 then -1 else i + 1
       end.

(** [func Contains(s, substr string) bool { return Index(s, substr) >= 0 }] *)
Definition Contains (s substr : string) : bool := 0 <=? Index s substr.

(** [func Count(s, substr string) int]: the number of non-overlapping
    instances of a non-empty [substr] in [s].  The search restarts behind each
    instance found; [fuel] bounds the number of restarts. *)
Fixpoint countFrom (fuel : nat) (s substr : string) : Z :=
  match fuel with
  | O => 0
  | S fuel' =>
      let i := Index s substr in
      if i <? 0 then 0
      else 1 + countFrom fuel' (slice_from s (i + len substr)) substr
  end.

Definition Count (s substr : string) : Z :=
  countFrom (String.length s) s substr.

(** The loop of [genSplit(s, sep, 0, n)] over the [n > 0] slots of its result:
    [for i < n-1 { m := Index(s, sep); if m < 0 { break };
                   a[i] = s[:m]; s = s[m+len(sep):]; i++ }; a[i] = s]. *)
Fixpoint genSplit (s sep : string) (n : nat) : list string :=
  match n with
  | O => []
  | S O => [s]
  | S n' =>
      let m := Index s sep in
      if m <? 0 then [s]
      else slice_to s m :: genSplit (slice_from s (m + len sep)) sep n'
  end.

(** [func SplitN(s, sep string, n int) []string], that is
    [genSplit(s, sep, 0, n)]: [if n == 0 { return nil }];
    [if n < 0 { n = Count(s, sep) + 1 }]; [if n > len(s)+1 { n = len(s) + 1 }];
    then the loop.  Only non-empty separators are modelled: the source passes
    "://" and ".". *)
Definition SplitN (s sep : string) (n : Z) : list string :=
  if n =? 0 then []
  else
    let n := if n <? 0 then Count s sep + 1 else n in
    let n := if len s + 1 <? n then len s + 1 else n in
    genSplit s sep (Z.to_nat n).

(** [func Split(s, sep string) []string { return genSplit(s, sep, 0, -1) }] *)
Definition Split (s sep : string) : list string := SplitN s sep (-1).

(** [func Join(elems []string, sep string) string] *)
Fixpoint Join (elems : list string) (sep : string) : string :=
  match elems with
  | [] => ""
  | [e] => e
  | e :: rest => e ++ sep ++ Join rest sep
  end.

(** [func TrimSuffix(s, suffix string) string]:
    [if HasSuffix(s, suffix) { return s[:len(s)-len(suffix)] }; return s] *)
Definition TrimSuffix (s suffix : string) : string :=
  if HasSuffix s suffix then slice_to s (len s - len suffix) else s.

(** ['A' <= c && c <= 'Z'] then [c += 'a' - 'A'] *)
Definition lowerByte (c : ascii) : ascii :=
  let n := nat_of_ascii c in
  if (65 <=? n)%nat && (n <=? 90)%nat then ascii_of_nat (n + 32) else c.

(** ['a' <= c && c <= 'z'] then [c -= 'a' - 'A'] *)
Definition upperByte (c : ascii) : ascii :=
  let n := nat_of_ascii c in
  if (97 <=? n)%nat && (n <=? 122)%nat then ascii_of_nat (n - 32) else c.

Fixpoint mapBytes (f : ascii -> ascii) (s : string) : string :=
  match s with
  | EmptyString => EmptyString
  | String c s' => String (f c) (mapBytes f s')
  end.

(** The first loop of [ToLower] and [ToUpper]: no byte reaches
    [utf8.RuneSelf]. *)
Fixpoint isASCII (s : string) : bool :=
  match s with
  | EmptyString => true
  | String c s' => (utf8.byte c <? utf8.RuneSelf) && isASCII s'
  end.

(** [func Map(mapping func(rune) rune, s string) string]: the runes of [s], as
    [for _, c := range s] reads them (an ill-formed byte reads as
    [utf8.RuneError]), each replaced by the encoding of [mapping(c)], or
    dropped when [mapping(c)] is negative.  Every step consumes at least one
    byte; [fuel] bounds the number of steps. *)
Fixpoint mapLoop (fuel : nat) (mapping : Z -> Z) (s : string) : string :=
  match fuel with
  | O => EmptyString
  | S fuel' =>
      match s with
      | EmptyString => EmptyString
      | String _ _ =>
          let '(c, width) := utf8.DecodeRuneInString s in
          let r := mapping c in
          (if 0 <=? r then utf8.EncodeRune r else EmptyString)
          ++ mapLoop fuel' mapping (slice_from s width)
      end
  end.

Definition Map (mapping : Z -> Z) (s : string) : string :=
  mapLoop (String.length s) mapping s.

(** [func ToLower(s string) string]: byte by byte for an ASCII string,
    [Map(unicode.ToLower, s)] otherwise. *)
Definition ToLower `{unicode.CaseTables} (s : string) : string :=
  if isASCII s then mapBytes lowerByte s else Map unicode.ToLower s.

(** [func ToUpper(s string) string]: byte by byte for an ASCII string,
    [Map(unicode.ToUpper, s)] otherwise. *)
Definition ToUpper `{unicode.CaseTables} (s : string) : string :=
  if isASCII s then mapBytes upperByte s else Map unicode.ToUpper s.

(** The loop of [Replace] over its [n] replacements, for a non-empty [old]:
    [j := start + Index(s[start:], old); b.WriteString(s[start:j]);
     b.WriteString(new); start = j + len(old)], then [b.WriteString(s[start:])].
    The string still to be read, [s[start:]], is the argument. *)
Fixpoint replaceLoop (n : nat) (s old new : string) : string :=
  match n with
  | O => s
  | S n' =>
      let j := Index s old in
      slice_to s j ++ new ++ replaceLoop n' (slice_from s (j + len old)) old new
  end.

(** [func Replace(s, old, new string, n int) string]:
    [if old == new || n == 0 { return s }];
    [if m := Count(s, old); m == 0 { return s } else if n < 0 || m < n { n = m }];
    then the loop.  Only a non-empty [old] is modelled. *)
Definition Replace (s old new : string) (n : Z) : string :=
  if String.eqb old new || (n =? 0) then s
  else
    let m := Count s old in
    if m =? 0 then s
    else
      let n := if (n <? 0) || (m <? n) then m else n in
      replaceLoop (Z.to_nat n) s old new.

(** [func ReplaceAll(s, old, new string) string { return Replace(s, old, new, -1) }] *)
Definition ReplaceAll (s old new : string) : string := Replace s old new (-1).

End strings.

(** ** Outcome of a Go call: it returns, or it panics *)

Inductive go (A : Type) : Type :=
| Return (a : A)
| Panic (msg : string).
Arguments Return {A} a.
Arguments Panic {A} msg.

(** [parts[i]]: indexing a slice panics outside [0 <= i < len(parts)]. *)
Definition index_slice {A : Type} (xs : list A) (i : Z) : go A :=
  if (i <? 0) || (Z.of_nat (List.length xs) <=? i)
  then Panic "index out of range"
  else match nth_error xs (Z.to_nat i) with
       | Some x => Return x
       | None => Panic "index out of range"
       end.

(** Go's [error] interface value; [nil] is [None]. *)
Inductive error : Type := errorString (msg : string).

(** ** [tldextract.go] *)

(** [type Result struct { Subdomain string; Domain string; TLD string }] *)
Record Result : Type := mkResult {
  Subdomain : string;
  Domain : string;
  TLD : string
}.

(** [func cleanDomain(domain string) string] *)
Definition cleanDomain `{unicode.CaseTables} (domain : string) : string :=
  (* Remove protocol *)
  let domain :=
    if strings.Contains domain "://" then
      let parts := strings.SplitN domain "://" 2 in
      if Z.of_nat (List.length parts) =? 2
      then nth 1 parts domain
      else domain
    else domain in
  (* Remove path *)
  let domain :=
    let idx := strings.Index domain "/" in
    if negb (idx =? -1) then strings.slice_to domain idx else domain in
  (* Remove port *)
  let domain :=
    let idx := strings.Index domain ":" in
    if negb (idx =? -1) then strings.slice_to domain idx else domain in
  (* Remove trailing dot *)
  let domain := strings.TrimSuffix domain "." in
  strings.ToLower domain.

Section Lookup.

Context `{unicode.CaseTables}.

(** [publicsuffix.PublicSuffix] of golang.org/x/net: the public suffix of a
    domain and whether an ICANN rule produced it.  The package is imported,
    not part of this repository; [Extract] is defined over any such lookup. *)
Variable PublicSuffix : string -> string * bool.

(** [func Extract(domain string)], returning a [*Result] and an [error] *)
Definition Extract (domain : string) : go (option Result * option error) :=
  let domain := cleanDomain domain in
  let '(suffix, icann) := PublicSuffix domain in
  let suffix := if negb icann then fst (PublicSuffix domain) else suffix in
  if String.eqb domain suffix then
    Return (Some (mkResult "" "" suffix), None)
  else
    let domainWithoutSuffix := strings.TrimSuffix domain ("." ++ suffix) in
    let parts := strings.Split domainWithoutSuffix "." in
    if Z.of_nat (List.length parts) =? 0 then
      Return (Some (mkResult "" "" suffix), None)
    else
      match index_slice parts (Z.of_nat (List.length parts) - 1) with
      | Panic msg => Panic msg
      | Return domainName =>
          let subdomain :=
            if 1 <? Z.of_nat (List.length parts)
            then strings.Join (firstn (List.length parts - 1) parts) "."
            else "" in
          Return (Some (mkResult subdomain domainName suffix), None)
      end.

(** [func ExtractFromURL(url string)]: [return Extract(url)] *)
Definition ExtractFromURL (url : string) : go (option Result * option error) :=
  Extract url.

End Lookup.

(** [func (r *Result) String() string], on a non-nil receiver *)
Definition Result_String (r : Result) : string :=
  if String.eqb (Domain r) "" then TLD r
  else Domain r ++ "." ++ TLD r.

(** [func (r *Result) FQDN() string], on a non-nil receiver *)
Definition Result_FQDN (r : Result) : string :=
  let parts : list string := [] in
  let parts := if negb (String.eqb (Subdomain r) "") then (parts ++ [Subdomain r])%list else parts in
  let parts := if negb (String.eqb (Domain r) "") then (parts ++ [Domain r])%list else parts in
  let parts := if negb (String.eqb (TLD r) "") then (parts ++ [TLD r])%list else parts in
  strings.Join parts ".".

(** ** The suffix lookup *)

Module publicsuffix.

(** The three kinds of rule of the public-suffix-list grammar. *)
Inductive RuleKind : Type := Plain | Wildcard | Exception.

Definition RuleKind_eqb (a b : RuleKind) : bool :=
  match a, b with
  | Plain, Plain | Wildcard, Wildcard | Exception, Exception => true
  | _, _ => false
  end.

(** A rule: its kind, its fixed labels dot-joined ("co.uk" for the plain rule
    co.uk, "ck" for the wildcard rule *.ck, "www.ck" for the exception rule
    !www.ck) and whether it belongs to the ICANN part of the list. *)
Record Rule : Type := mkRule {
  kind : RuleKind;
  labels : string;
  icann : bool
}.

Definition SuffixRuleSet : Type := list Rule.

Definition lookup (rules : SuffixRuleSet) (k : RuleKind) (pattern : string)
  : option Rule :=
  find (fun r => RuleKind_eqb (kind r) k && String.eqb (labels r) pattern) rules.

(** The trailing-label combinations of a host, from the full label count down
    to one label. *)
Fixpoint trailing (ls : list string) : list (list string) :=
  match ls with
  | [] => []
  | _ :: rest => ls :: trailing rest
  end.

(** A plain rule matches the trailing labels [t] when they are its labels; a
    wildcard rule matches when [t] is any single label followed by its labels. *)
Definition matching (rules : SuffixRuleSet) (t : list string) : option Rule :=
  match lookup rules Plain (strings.Join t ".") with
  | Some r => Some r
  | None =>
      match t with
      | _ :: (_ :: _) as fixed => lookup rules Wildcard (strings.Join fixed ".")
      | _ => None
      end
  end.

Fixpoint longest_match (rules : SuffixRuleSet) (cands : list (list string))
  : option (list string * Rule) :=
  match cands with
  | [] => None
  | t :: rest =>
      match matching rules t with
      | Some r => Some (t, r)
      | None => longest_match rules rest
      end
  end.

Fixpoint exception_match (rules : SuffixRuleSet) (cands : list (list string))
  : option (list string * Rule) :=
  match cands with
  | [] => None
  | t :: rest =>
      match lookup rules Exception (strings.Join t ".") with
      | Some r => Some (t, r)
      | None => exception_match rules rest
      end
  end.

(** Modelled from the spec: [publicsuffix.PublicSuffix] of golang.org/x/net and
    its embedded rule table are imported by [tldextract.go] and are not part of
    the repository.  This is the resolver of the spec's section 4.2, steps 1
    to 4, over an explicit rule set: split the host into labels; an exception
    rule for a trailing-label combination wins and yields that combination
    without its first label; otherwise the longest trailing combination that a
    plain or wildcard rule matches is the suffix; with no match at all the last
    label is the suffix. *)
Definition PublicSuffix (rules : SuffixRuleSet) (domain : string)
  : string * bool :=
  let ls := strings.Split domain "." in
  match exception_match rules (trailing ls) with
  | Some (t, r) => (strings.Join (tl t) ".", icann r)
  | None =>
      match longest_match rules (trailing ls) with
      | Some (t, r) => (strings.Join t ".", icann r)
      | None => (last ls "", false)
      end
  end.

(** Whether rule [r] matches the trailing labels [t]. *)
Definition rule_matches (r : Rule) (t : list string) : bool :=
  match kind r with
  | Plain | Exception => String.eqb (labels r) (strings.Join t ".")
  | Wildcard =>
      match t with
      | _ :: (_ :: _) as fixed => String.eqb (labels r) (strings.Join fixed ".")
      | _ => false
      end
  end.

(** No rule of the set matches any trailing-label combination of the host. *)
Definition no_rule_matches (rules : SuffixRuleSet) (host : string) : bool :=
  forallb (fun t => forallb (fun r => negb (rule_matches r t)) rules)
          (trailing (strings.Split host ".")).

(** [suffix] is a known plain suffix of the rule set. *)
Definition known_suffix (rules : SuffixRuleSet) (suffix : string) : bool :=
  existsb (fun r => RuleKind_eqb (kind r) Plain && String.eqb (labels r) suffix)
          rules.

(** A small conforming rule set: plain rules (one of them private), a
    wildcard rule and its exception. *)
Definition sample_rules : SuffixRuleSet :=
  [ mkRule Plain "com" true;
    mkRule Plain "uk" true;
    mkRule Plain "co.uk" true;
    mkRule Plain "jp" true;
    mkRule Plain "co.jp" true;
    mkRule Plain "br" true;
    mkRule Plain "com.br" true;
    mkRule Plain "io" true;
    mkRule Plain "github.io" false;
    mkRule Wildcard "ck" true;
    mkRule Exception "www.ck" true ].

End publicsuffix.

(** ** The normaliser as the specification words it *)

Module Spec.

(** Step 1: if the string contains "://", discard everything up to and
    including its first occurrence. *)
Fixpoint after_first (sep s : string) : option string :=
  if String.prefix sep s then Some (strings.drop (String.length sep) s)
  else match s with
       | EmptyString => None
       | String _ s' => after_first sep s'
       end.

Definition strip_scheme (s : string) : string :=
  match after_first "://" s with
  | Some rest => rest
  | None => s
  end.

(** Steps 2 and 3: truncate at the first occurrence of a character. *)
Fixpoint truncate_at (c : ascii) (s : string) : string :=
  match s with
  | EmptyString => EmptyString
  | String a s' => if Ascii.eqb a c then EmptyString else String a (truncate_at c s')
  end.

(** Step 4: strip a single trailing '.' if present. *)
Fixpoint strip_trailing_dot (s : string) : string :=
  match s with
  | EmptyString => EmptyString
  | String a EmptyString => if Ascii.eqb a "." then EmptyString else s
  | String a s' => String a (strip_trailing_dot s')
  end.

(** The character [c] occurs in [s]. *)
Fixpoint occurs (c : ascii) (s : string) : bool :=
  match s with
  | EmptyString => false
  | String a s' => Ascii.eqb a c || occurs c s'
  end.

(** The byte map [f] neither produces nor removes the character [c]. *)
Definition keeps (f : ascii -> ascii) (c : ascii) : Prop :=
  forall a, Ascii.eqb (f a) c = Ascii.eqb a c.

(** Step 5: lower-case the entire result. *)
Definition lower_case `{unicode.CaseTables} (s : string) : string :=
  strings.ToLower s.

Definition normalize `{unicode.CaseTables} (raw : string) : string :=
  lower_case
    (strip_trailing_dot
       (truncate_at ":" (truncate_at "/" (strip_scheme raw)))).

End Spec.

(** ** Counting and doubling a byte, structurally *)

Module Bytes.

(** The number of occurrences of the byte [c] in [s]. *)
Fixpoint count (c : ascii) (s : string) : nat :=
  match s with
  | EmptyString => O
  | String a s' => if Ascii.eqb a c then S (count c s') else count c s'
  end.

(** [s] with every byte [c] replaced by the string [new]. *)
Fixpoint subst (c : ascii) (new : string) (s : string) : string :=
  match s with
  | EmptyString => EmptyString
  | String a s' =>
      if Ascii.eqb a c then new ++ subst c new s' else String a (subst c new s')
  end.

End Bytes.

(** ** [cmd/tldextract/main.go], the variant with the [-csv] flag *)

Module cmd.

(** The double quote and the line feed, as one-byte strings. *)
Definition dquote : string := String "034"%char EmptyString.
Definition newline : string := String "010"%char EmptyString.

(** [type JSONOutput struct]; the fields that share a name with those of
    [Result] carry a prime. *)
Record JSONOutput : Type := mkJSONOutput {
  Input : string;
  Subdomain' : string;
  Domain' : string;
  TLD' : string;
  FQDN : string
}.

(** The closure [escapeCSV] of [processDomain] and [processDomainWithWriter]:
    [if strings.Contains(s, ",") || strings.Contains(s, dquote)
        || strings.Contains(s, newline)]
    then [fmt.Sprintf] wraps [strings.ReplaceAll(s, dquote, dquote dquote)]
    in double quotes, else [s] is returned as it is. *)
Definition escapeCSV (s : string) : string :=
  if strings.Contains s "," || strings.Contains s dquote
     || strings.Contains s newline
  then dquote ++ strings.ReplaceAll s dquote (dquote ++ dquote) ++ dquote
  else s.

(** The CSV record: [fmt.Sprintf] of five comma-separated fields and a line
    feed, over [escapeCSV] of the input, the three fields and [FQDN()]. *)
Definition csvLine (domain : string) (result : Result) : string :=
  escapeCSV domain ++ "," ++
  escapeCSV (Subdomain result) ++ "," ++
  escapeCSV (Domain result) ++ "," ++
  escapeCSV (TLD result) ++ "," ++
  escapeCSV (Result_FQDN result) ++ newline.

Section Flags.

Context `{unicode.CaseTables}.

(** The lookup that [gotldextract.Extract] consults, [json.Marshal] of the
    standard library (a [JSONOutput] always marshals, the source drops its
    error) and the two flags [-json] and [-csv]. *)
Variable PublicSuffix : string -> string * bool.
Variable Marshal : JSONOutput -> string.
Variables jsonFlag csvFlag : bool.

Definition output (domain : string) (result : Result) : JSONOutput :=
  mkJSONOutput domain (Subdomain result) (Domain result) (TLD result)
               (Result_FQDN result).

(** [func processDomainWithWriter(domain string, writer *bufio.Writer)]; the
    writer is modelled by the bytes written to it so far.  With a non-nil
    error the function logs to the standard error and returns. *)
Definition processDomainWithWriter (domain : string) (writer : string)
  : go string :=
  match Extract PublicSuffix domain with
  | Panic msg => Panic msg
  | Return (_, Some _) => Return writer
  | Return (None, None) => Panic "nil pointer dereference"
  | Return (Some result, None) =>
      if jsonFlag then
        Return (writer ++ Marshal (output domain result) ++ newline)
      else if csvFlag then
        Return (writer ++ csvLine domain result)
      else
        Return (writer ++ Result_String result ++ newline)
  end.

(** [func processDomain(domain string)]; the standard output is modelled by
    the bytes printed so far. *)
Definition processDomain (domain : string) (stdout : string) : go string :=
  match Extract PublicSuffix domain with
  | Panic msg => Panic msg
  | Return (_, Some _) => Return stdout
  | Return (None, None) => Panic "nil pointer dereference"
  | Return (Some result, None) =>
      if jsonFlag then
        Return (stdout ++ Marshal (output domain result) ++ newline)
      else if csvFlag then
        Return (stdout ++ csvLine domain result)
      else
        Return (stdout
                ++ "Input: " ++ domain ++ newline
                ++ "  Subdomain: " ++ Subdomain result ++ newline
                ++ "  Domain: " ++ Domain result ++ newline
                ++ "  TLD: " ++ TLD result ++ newline
                ++ "  FQDN: " ++ Result_FQDN result ++ newline
                ++ newline)
  end.

End Flags.

End cmd.

(** ** Slices and lengths *)

Section StringFacts.

Import strings.

Lemma length_app (a b : string) :
  String.length (a ++ b) = (String.length a + String.length b)%nat.
Proof. induction a as [|c a IH]; simpl; [reflexivity | now rewrite IH]. Qed.

Lemma app_assoc_s (a b c : string) : (a ++ b) ++ c = a ++ (b ++ c).
Proof. induction a as [|x a IH]; simpl; [reflexivity | now rewrite IH]. Qed.

Lemma take_app (a b : string) : take (String.length a) (a ++ b) = a.
Proof. induction a as [|c a IH]; simpl; [now destruct b | now rewrite IH]. Qed.

Lemma drop_app (a b : string) : drop (String.length a) (a ++ b) = b.
Proof. induction a as [|c a IH]; simpl; [reflexivity | exact IH]. Qed.

Lemma take_drop (n : nat) (s : string) : take n s ++ drop n s = s.
Proof.
  revert s; induction n as [|n IH]; intros [|c s]; simpl; try reflexivity.
  now rewrite IH.
Qed.

Lemma length_drop (n : nat) (s : string) :
  String.length (drop n s) = (String.length s - n)%nat.
Proof.
  revert s; induction n as [|n IH]; intros [|c s]; simpl; try reflexivity; try lia.
  apply IH.
Qed.

Lemma drop_app_le (n : nat) (a b : string) :
  (n <= String.length a)%nat -> drop n (a ++ b) = drop n a ++ b.
Proof.
  revert a; induction n as [|n IH]; intros [|c a] H; simpl in *;
    try reflexivity; try lia.
  apply IH. lia.
Qed.

Lemma len_nonneg (s : string) : 0 <= len s.
Proof. unfold len; lia. Qed.

Lemma len_cons (c : ascii) (s : string) : len (String c s) = len s + 1.
Proof. unfold len; simpl String.length; lia. Qed.

Lemma slice_to_len_app (a b : string) : slice_to (a ++ b) (len a) = a.
Proof. unfold slice_to, len; rewrite Nat2Z.id; apply take_app. Qed.

Lemma slice_from_len_app (a b : string) : slice_from (a ++ b) (len a) = b.
Proof. unfold slice_from, len; rewrite Nat2Z.id; apply drop_app. Qed.

Lemma slice_from_cons (c : ascii) (s : string) (i : Z) :
  0 <= i -> slice_from (String c s) (i + 1) = slice_from s i.
Proof.
  intros H; unfold slice_from.
  replace (Z.to_nat (i + 1)) with (S (Z.to_nat i)) by lia; reflexivity.
Qed.

Lemma slice_to_cons (c : ascii) (s : string) (i : Z) :
  0 <= i -> slice_to (String c s) (i + 1) = String c (slice_to s i).
Proof.
  intros H; unfold slice_to.
  replace (Z.to_nat (i + 1)) with (S (Z.to_nat i)) by lia; reflexivity.
Qed.

Lemma slice_to_0 (s : string) : slice_to s 0 = "".
Proof. unfold slice_to; simpl; now destruct s. Qed.

(** ** Prefixes, suffixes and [Index] *)

Lemma HasPrefix_nil (s : string) : HasPrefix s "" = true.
Proof.
  unfold HasPrefix. change (len "") with 0. rewrite slice_to_0.
  pose proof (len_nonneg s). destruct (0 <=? len s) eqn:E; [reflexivity | lia].
Qed.

Lemma HasPrefix_empty (b : ascii) (p : string) : HasPrefix "" (String b p) = false.
Proof.
  unfold HasPrefix. rewrite len_cons. change (len "") with 0.
  pose proof (len_nonneg p). destruct (len p + 1 <=? 0) eqn:E; [lia | reflexivity].
Qed.

Lemma HasPrefix_cons (a b : ascii) (s p : string) :
  HasPrefix (String a s) (String b p) = Ascii.eqb a b && HasPrefix s p.
Proof.
  unfold HasPrefix. rewrite !len_cons.
  rewrite slice_to_cons by apply len_nonneg. simpl String.eqb.
  replace (len p + 1 <=? len s + 1) with (len p <=? len s)
    by (destruct (len p <=? len s) eqn:E1, (len p + 1 <=? len s + 1) eqn:E2; lia).
  destruct (len p <=? len s), (Ascii.eqb a b); reflexivity.
Qed.

Lemma HasPrefix_app (p r : string) : HasPrefix (p ++ r) p = true.
Proof.
  induction p as [|c p IH]; simpl.
  - apply HasPrefix_nil.
  - rewrite HasPrefix_cons, Ascii.eqb_refl, IH; reflexivity.
Qed.

Lemma HasPrefix_prefix (s p : string) : HasPrefix s p = String.prefix p s.
Proof.
  revert s; induction p as [|b p IH]; intros s.
  - rewrite HasPrefix_nil; now destruct s.
  - destruct s as [|a s].
    + rewrite HasPrefix_empty; reflexivity.
    + rewrite HasPrefix_cons, IH. simpl.
      destruct (ascii_dec b a) as [->|N].
      * rewrite Ascii.eqb_refl; reflexivity.
      * destruct (Ascii.eqb a b) eqn:E; [|reflexivity].
        apply Ascii.eqb_eq in E; congruence.
Qed.

Lemma Index_ge (s sub : string) : -1 <= Index s sub.
Proof.
  induction s as [|c s IH]; simpl.
  - destruct (HasPrefix "" sub); lia.
  - destruct (HasPrefix (String c s) sub); [lia|].
    destruct (Index s sub <? 0) eqn:E; lia.
Qed.

(** [Index] stays inside the string: the slices [s[:idx]] and
    [s[idx+len(substr):]] that the source takes never leave its bounds. *)
Lemma Index_le (s sub : string) : Index s sub + len sub <= len s \/ Index s sub = -1.
Proof.
  induction s as [|c s IH]; simpl.
  - destruct (HasPrefix "" sub) eqn:E; [|right; reflexivity].
    left. unfold HasPrefix in E. apply andb_true_iff in E as [E _]. lia.
  - destruct (HasPrefix (String c s) sub) eqn:E.
    + left. unfold HasPrefix in E. apply andb_true_iff in E as [E _]. lia.
    + destruct (Index s sub <? 0) eqn:E2; [right; reflexivity|].
      left. rewrite len_cons. destruct IH; lia.
Qed.

End StringFacts.

(** ** Each step of [cleanDomain] against its wording in the specification *)

Section NormaliserSteps.

Context `{T : unicode.CaseTables}.

Import strings.

Lemma Index_eq (s sub : string) :
  Index s sub =
  if HasPrefix s sub then 0
  else match s with
       | EmptyString => -1
       | String _ s' => if Index s' sub <? 0 then -1 else Index s' sub + 1
       end.
Proof. destruct s; reflexivity. Qed.

Lemma after_first_eq (sep s : string) :
  Spec.after_first sep s =
  if String.prefix sep s then Some (drop (String.length sep) s)
  else match s with
       | EmptyString => None
       | String _ s' => Spec.after_first sep s'
       end.
Proof. destruct s; reflexivity. Qed.

Lemma after_first_Index (sep s : string) :
  Spec.after_first sep s =
  if Index s sep <? 0 then None
  else Some (slice_from s (Index s sep + len sep)).
Proof.
  induction s as [|c s IH]; rewrite after_first_eq, Index_eq, HasPrefix_prefix.
  - destruct (prefix sep ""); simpl; [|reflexivity].
    unfold slice_from, len; now rewrite Nat2Z.id.
  - destruct (prefix sep (String c s)); simpl.
    + unfold slice_from, len; now rewrite Nat2Z.id.
    + rewrite IH. pose proof (Index_ge s sep). pose proof (len_nonneg sep).
      destruct (Index s sep <? 0) eqn:E; simpl; [reflexivity|].
      destruct (Index s sep + 1 <? 0) eqn:E2; [lia|].
      replace (Index s sep + 1 + len sep) with (Index s sep + len sep + 1) by lia.
      rewrite slice_from_cons by lia. reflexivity.
Qed.

Lemma scheme_step (domain : string) :
  (if Contains domain "://" then
     if Z.of_nat (List.length (SplitN domain "://" 2)) =? 2
     then nth 1 (SplitN domain "://" 2) domain else domain
   else domain) = Spec.strip_scheme domain.
Proof.
  unfold Spec.strip_scheme, Contains. rewrite after_first_Index.
  pose proof (Index_le domain "://") as B. change (len "://") with 3 in B.
  destruct (Index domain "://" <? 0) eqn:E.
  - destruct (0 <=? Index domain "://") eqn:E2; [lia | reflexivity].
  - destruct (0 <=? Index domain "://") eqn:E2; [|lia].
    unfold SplitN. change (2 =? 0) with false. change (2 <? 0) with false.
    cbv iota zeta.
    destruct (len domain + 1 <? 2) eqn:E3; [lia|].
    change (Z.to_nat 2) with 2%nat. cbn [genSplit]. rewrite E. reflexivity.
Qed.

Lemma truncate_step (c : ascii) (domain : string) :
  (if negb (Index domain (String c "") =? -1)
   then slice_to domain (Index domain (String c "")) else domain)
  = Spec.truncate_at c domain.
Proof.
  induction domain as [|a s IH]; rewrite Index_eq.
  - rewrite HasPrefix_empty. reflexivity.
  - rewrite HasPrefix_cons, HasPrefix_nil, andb_true_r.
    change (Spec.truncate_at c (String a s))
      with (if Ascii.eqb a c then "" else String a (Spec.truncate_at c s)).
    destruct (Ascii.eqb a c).
    + apply slice_to_0.
    + pose proof (Index_ge s (String c "")) as G.
      destruct (Index s (String c "") <? 0) eqn:E.
      * replace (Index s (String c "")) with (-1) in IH by lia.
        change (String a s = String a (Spec.truncate_at c s)).
        now rewrite <- IH.
      * destruct (Index s (String c "") =? -1) eqn:E1; [lia|].
        destruct (Index s (String c "") + 1 =? -1) eqn:E2; [lia|].
        cbn [negb] in *. rewrite slice_to_cons by lia. now rewrite IH.
Qed.

Lemma len_app (a b : string) : len (a ++ b) = len a + len b.
Proof. unfold len; rewrite length_app; lia. Qed.

Lemma HasSuffix_app (pre suf : string) : HasSuffix (pre ++ suf) suf = true.
Proof.
  unfold HasSuffix. rewrite len_app.
  replace (len pre + len suf - len suf) with (len pre) by lia.
  rewrite slice_from_len_app, String.eqb_refl, andb_true_r.
  apply Z.leb_le. pose proof (len_nonneg pre). lia.
Qed.

Lemma TrimSuffix_app (pre suf : string) : TrimSuffix (pre ++ suf) suf = pre.
Proof.
  unfold TrimSuffix. rewrite HasSuffix_app, len_app.
  replace (len pre + len suf - len suf) with (len pre) by lia.
  apply slice_to_len_app.
Qed.

Lemma HasSuffix_inv (s suf : string) :
  HasSuffix s suf = true -> s = TrimSuffix s suf ++ suf.
Proof.
  intros H. unfold TrimSuffix. rewrite H.
  unfold HasSuffix in H. apply andb_true_iff in H as [_ H].
  apply String.eqb_eq in H.
  rewrite <- (take_drop (Z.to_nat (len s - len suf)) s) at 1.
  unfold slice_to. f_equal. exact H.
Qed.

Lemma strip_trailing_dot_app (pre : string) :
  Spec.strip_trailing_dot (pre ++ ".") = pre.
Proof.
  induction pre as [|c pre IH]; [reflexivity|].
  simpl. rewrite IH. destruct pre; reflexivity.
Qed.

Lemma strip_trailing_dot_cases (s : string) :
  Spec.strip_trailing_dot s = s \/ s = Spec.strip_trailing_dot s ++ ".".
Proof.
  induction s as [|c s IH]; [now left|].
  destruct s as [|d s].
  - simpl. destruct (Ascii.eqb c ".") eqn:E; [|now left].
    apply Ascii.eqb_eq in E; subst. now right.
  - change (Spec.strip_trailing_dot (String c (String d s)))
      with (String c (Spec.strip_trailing_dot (String d s))).
    destruct IH as [IH|IH].
    + left. now rewrite IH.
    + right.
      change (String c (String d s)
              = String c (Spec.strip_trailing_dot (String d s) ++ ".")).
      f_equal. exact IH.
Qed.

Lemma dot_step (domain : string) :
  TrimSuffix domain "." = Spec.strip_trailing_dot domain.
Proof.
  destruct (HasSuffix domain ".") eqn:E.
  - apply HasSuffix_inv in E. rewrite E at 2.
    now rewrite strip_trailing_dot_app.
  - destruct (strip_trailing_dot_cases domain) as [H|H].
    + rewrite H. unfold TrimSuffix. now rewrite E.
    + rewrite H in E. rewrite HasSuffix_app in E. discriminate.
Qed.

(** The code and the five ordered steps of the specification agree on every
    input. *)
Lemma cleanDomain_normalize (raw : string) : cleanDomain raw = Spec.normalize raw.
Proof.
  unfold cleanDomain, Spec.normalize, Spec.lower_case. cbv zeta.
  rewrite scheme_step.
  rewrite (truncate_step "/" (Spec.strip_scheme raw)).
  rewrite (truncate_step ":" (Spec.truncate_at "/" (Spec.strip_scheme raw))).
  now rewrite dot_step.
Qed.

End NormaliserSteps.

(** ** Byte maps that leave the separators alone *)

Section ByteMaps.

Import strings.

Variable f : ascii -> ascii.

Lemma mapBytes_drop (n : nat) (s : string) :
  drop n (mapBytes f s) = mapBytes f (drop n s).
Proof.
  revert s; induction n as [|n IH]; intros [|a s]; simpl; try reflexivity.
  apply IH.
Qed.

Lemma mapBytes_truncate_at (c : ascii) (s : string) :
  Spec.keeps f c -> Spec.truncate_at c (mapBytes f s) = mapBytes f (Spec.truncate_at c s).
Proof.
  intros K; induction s as [|a s IH]; simpl; [reflexivity|].
  rewrite K. destruct (Ascii.eqb a c); simpl; [reflexivity | now rewrite IH].
Qed.

Lemma mapBytes_strip_trailing_dot (s : string) :
  Spec.keeps f "." ->
  Spec.strip_trailing_dot (mapBytes f s) = mapBytes f (Spec.strip_trailing_dot s).
Proof.
  intros K; induction s as [|a s IH]; [reflexivity|].
  destruct s as [|b s].
  - simpl. rewrite K. destruct (Ascii.eqb a "."); reflexivity.
  - change (String (f a) (Spec.strip_trailing_dot (mapBytes f (String b s)))
            = String (f a) (mapBytes f (Spec.strip_trailing_dot (String b s)))).
    now rewrite IH.
Qed.

Lemma mapBytes_scheme_prefix (s : string) :
  Spec.keeps f ":" -> Spec.keeps f "/" ->
  String.prefix "://" (mapBytes f s) = String.prefix "://" s.
Proof.
  intros K1 K2. rewrite <- !HasPrefix_prefix.
  destruct s as [|a [|b [|c s]]]; simpl mapBytes;
    repeat first [ rewrite HasPrefix_cons | rewrite HasPrefix_nil
                 | rewrite HasPrefix_empty | rewrite K1 | rewrite K2 ];
    reflexivity.
Qed.

Lemma mapBytes_after_first (s : string) :
  Spec.keeps f ":" -> Spec.keeps f "/" ->
  Spec.after_first "://" (mapBytes f s)
  = option_map (mapBytes f) (Spec.after_first "://" s).
Proof.
  intros K1 K2. induction s as [|a s IH].
  - reflexivity.
  - rewrite (after_first_eq "://" (String a s)), after_first_eq.
    rewrite mapBytes_scheme_prefix by assumption.
    destruct (String.prefix "://" (String a s)).
    + simpl option_map. now rewrite mapBytes_drop.
    + simpl mapBytes. exact IH.
Qed.

Lemma mapBytes_strip_scheme (s : string) :
  Spec.keeps f ":" -> Spec.keeps f "/" ->
  Spec.strip_scheme (mapBytes f s) = mapBytes f (Spec.strip_scheme s).
Proof.
  intros K1 K2. unfold Spec.strip_scheme.
  rewrite mapBytes_after_first by assumption.
  now destruct (Spec.after_first "://" s).
Qed.

End ByteMaps.

Section CaseMapping.

Import strings.

Ltac all_bytes a :=
  destruct a as [[] [] [] [] [] [] [] []]; reflexivity.

Lemma upperByte_keeps_slash : Spec.keeps upperByte "/".
Proof. intros a; all_bytes a. Qed.

Lemma upperByte_keeps_colon : Spec.keeps upperByte ":".
Proof. intros a; all_bytes a. Qed.

Lemma upperByte_keeps_dot : Spec.keeps upperByte ".".
Proof. intros a; all_bytes a. Qed.

Lemma lowerByte_upperByte (a : ascii) : lowerByte (upperByte a) = lowerByte a.
Proof. all_bytes a. Qed.

Lemma lowerBytes_upperBytes (s : string) :
  mapBytes lowerByte (mapBytes upperByte s) = mapBytes lowerByte s.
Proof.
  induction s as [|a s IH]; simpl; [reflexivity|].
  now rewrite lowerByte_upperByte, IH.
Qed.

End CaseMapping.

(** ** What the truncation steps leave behind *)

Section Occurrences.

Import strings.

Lemma Contains_occurs (c : ascii) (s : string) :
  Contains s (String c "") = Spec.occurs c s.
Proof.
  unfold Contains. induction s as [|a s IH]; rewrite Index_eq.
  - rewrite HasPrefix_empty. reflexivity.
  - rewrite HasPrefix_cons, HasPrefix_nil, andb_true_r. simpl Spec.occurs.
    destruct (Ascii.eqb a c); [reflexivity|]. rewrite <- IH.
    pose proof (Index_ge s (String c "")).
    destruct (Index s (String c "") <? 0) eqn:E;
      destruct (0 <=? Index s (String c "")) eqn:E2; simpl; try lia; try reflexivity.
Qed.

Lemma occurs_app (c : ascii) (a b : string) :
  Spec.occurs c (a ++ b) = Spec.occurs c a || Spec.occurs c b.
Proof.
  induction a as [|x a IH]; simpl; [reflexivity|].
  rewrite IH. now rewrite orb_assoc.
Qed.

Lemma occurs_drop (c : ascii) (n : nat) (s : string) :
  Spec.occurs c s = false -> Spec.occurs c (drop n s) = false.
Proof.
  revert s; induction n as [|n IH]; intros [|a s] H; simpl in *; try assumption.
  apply IH. now apply orb_false_iff in H.
Qed.

Lemma occurs_truncate_same (c : ascii) (s : string) :
  Spec.occurs c (Spec.truncate_at c s) = false.
Proof.
  induction s as [|a s IH]; simpl; [reflexivity|].
  destruct (Ascii.eqb a c) eqn:E; simpl; [reflexivity | now rewrite E, IH].
Qed.

Lemma occurs_truncate (c d : ascii) (s : string) :
  Spec.occurs c s = false -> Spec.occurs c (Spec.truncate_at d s) = false.
Proof.
  induction s as [|a s IH]; simpl; [reflexivity|]. intros H.
  apply orb_false_iff in H as [H1 H2].
  destruct (Ascii.eqb a d); simpl; [reflexivity | now rewrite H1, IH].
Qed.

Lemma occurs_strip (c : ascii) (s : string) :
  Spec.occurs c s = false -> Spec.occurs c (Spec.strip_trailing_dot s) = false.
Proof.
  induction s as [|a s IH]; [reflexivity|]. intros H.
  simpl in H. apply orb_false_iff in H as [H1 H2].
  destruct s as [|b s].
  - simpl. destruct (Ascii.eqb a "."); simpl; [reflexivity | now rewrite H1].
  - change (Ascii.eqb a c || Spec.occurs c (Spec.strip_trailing_dot (String b s))
            = false).
    rewrite H1, IH; [reflexivity | exact H2].
Qed.

Lemma truncate_at_id (c : ascii) (s : string) :
  Spec.occurs c s = false -> Spec.truncate_at c s = s.
Proof.
  induction s as [|a s IH]; simpl; [reflexivity|]. intros H.
  apply orb_false_iff in H as [H1 H2]. now rewrite H1, IH.
Qed.

Lemma truncate_at_app (c : ascii) (h p : string) :
  Spec.occurs c h = false -> Spec.truncate_at c (h ++ String c p) = h.
Proof.
  induction h as [|a h IH]; simpl.
  - now rewrite Ascii.eqb_refl.
  - intros H. apply orb_false_iff in H as [H1 H2]. now rewrite H1, IH.
Qed.

Lemma after_first_no_colon (s : string) :
  Spec.occurs ":" s = false -> Spec.after_first "://" s = None.
Proof.
  induction s as [|a s IH]; [reflexivity|]. intros H.
  simpl in H. apply orb_false_iff in H as [H1 H2].
  rewrite after_first_eq, <- HasPrefix_prefix, HasPrefix_cons, H1. simpl.
  now apply IH.
Qed.

Lemma strip_scheme_id (s : string) :
  Spec.occurs ":" s = false -> Spec.strip_scheme s = s.
Proof.
  intros H; unfold Spec.strip_scheme; now rewrite after_first_no_colon.
Qed.

Lemma Contains_after_first (sep s : string) :
  Contains s sep = false <-> Spec.after_first sep s = None.
Proof.
  unfold Contains. rewrite after_first_Index.
  destruct (Index s sep <? 0) eqn:E; destruct (0 <=? Index s sep) eqn:E2;
    try lia; split; congruence.
Qed.

(** The first "://" of [pre ++ "://" ++ rest] is the one written out, when
    [pre] holds none. *)
Lemma after_first_scheme (pre rest : string) :
  Spec.after_first "://" pre = None ->
  Spec.after_first "://" (pre ++ "://" ++ rest) = Some rest.
Proof.
  induction pre as [|a pre IH].
  - intros _. rewrite after_first_eq, <- HasPrefix_prefix.
    change ("" ++ "://" ++ rest) with ("://" ++ rest).
    now rewrite HasPrefix_app.
  - 
  rewrite after_first_eq, <- HasPrefix_prefix. intros H.
  change ((String a pre) ++ "://" ++ rest) with (String a (pre ++ "://" ++ rest)).
  rewrite after_first_eq, <- HasPrefix_prefix.
  destruct (HasPrefix (String a pre) "://") eqn:E; [discriminate|].
  assert (E' : HasPrefix (String a (pre ++ "://" ++ rest)) "://" = false).
  { clear IH H. rewrite HasPrefix_cons in *.
    destruct (Ascii.eqb a ":"); [|reflexivity]. cbn [andb] in *.
    destruct pre as [|b pre].
    - change ("" ++ "://" ++ rest) with ("://" ++ rest).
      cbn [append]. rewrite HasPrefix_cons. reflexivity.
    - cbn [append]. rewrite HasPrefix_cons in *.
      destruct (Ascii.eqb b "/"); [|reflexivity]. cbn [andb] in *.
      destruct pre as [|c pre].
      + cbn [append]. rewrite HasPrefix_cons. reflexivity.
      + cbn [append]. rewrite HasPrefix_cons, HasPrefix_nil in *. exact E. }
  rewrite E'. now apply IH.
Qed.

End Occurrences.

(** ** UTF-8: reading and writing runes *)

Section Utf8Facts.

Import strings utf8.

Lemma byte_range (c : ascii) : 0 <= byte c < 256.
Proof.
  unfold byte. pose proof (nat_ascii_bounded c). lia.
Qed.

Lemma byte_of_byte (b : Z) : 0 <= b < 256 -> byte (of_byte b) = b.
Proof.
  intros H. unfold byte, of_byte. rewrite nat_ascii_embedding by lia. lia.
Qed.

Lemma of_byte_byte (c : ascii) : of_byte (byte c) = c.
Proof. unfold byte, of_byte. rewrite Nat2Z.id. apply ascii_nat_embedding. Qed.

Lemma byte_inj (a b : ascii) : byte a = byte b -> a = b.
Proof. intros H. rewrite <- (of_byte_byte a), <- (of_byte_byte b). now rewrite H. Qed.

Ltac bools :=
  repeat match goal with
    | H : _ && _ = true |- _ => apply andb_true_iff in H; destruct H
    | H : _ || _ = false |- _ => apply orb_false_iff in H; destruct H
    | H : negb _ = true |- _ => apply negb_true_iff in H
    | H : negb _ = false |- _ => apply negb_false_iff in H
    end.

Ltac split_ifs :=
  repeat match goal with
    | |- context [?a =? ?b] => destruct (a =? b) eqn:?
    end;
  repeat match goal with
    | |- context [if ?b then _ else _] => destruct b eqn:?
    end.

Lemma ValidRune_iff (r : Z) :
  ValidRune r = true <-> 0 <= r <= 0x10FFFF /\ (r < 0xD800 \/ 0xDFFF < r).
Proof.
  unfold ValidRune, MaxRune, surrogateMin, surrogateMax.
  rewrite !andb_true_iff, negb_true_iff, andb_false_iff.
  rewrite !Z.leb_le, !Z.leb_gt. lia.
Qed.

(** What [DecodeRuneInString] returns is a valid rune. *)
Lemma decode_valid (s : string) : ValidRune (fst (DecodeRuneInString s)) = true.
Proof.
  unfold DecodeRuneInString, RuneSelf, RuneError, locb, hicb.
  destruct s as [|c0 [|c1 [|c2 [|c3 t]]]]; try reflexivity;
    pose proof (byte_range c0); try pose proof (byte_range c1);
    try pose proof (byte_range c2); try pose proof (byte_range c3);
    cbv zeta; split_ifs; try reflexivity; cbn [fst];
    apply ValidRune_iff; bools; Z.div_mod_to_equations; lia.
Qed.

Lemma decode_width (c : ascii) (t : string) :
  1 <= snd (DecodeRuneInString (String c t)) <= len (String c t).
Proof.
  unfold DecodeRuneInString, RuneSelf, RuneError, locb, hicb.
  destruct t as [|c1 [|c2 [|c3 t]]];
    cbv zeta; split_ifs; cbn [snd]; rewrite ?len_cons;
    try (pose proof (len_nonneg t)); change (len "") with 0; lia.
Qed.

Lemma decode_ascii (c : ascii) (t : string) :
  byte c < 0x80 -> DecodeRuneInString (String c t) = (byte c, 1).
Proof.
  intros H. unfold DecodeRuneInString, RuneSelf.
  destruct (byte c <? 128) eqn:E; [reflexivity | lia].
Qed.

Lemma decode_ascii_inv (c : ascii) (t : string) :
  fst (DecodeRuneInString (String c t)) < 0x80 -> byte c < 0x80.
Proof.
  unfold DecodeRuneInString, RuneSelf, RuneError, locb, hicb.
  pose proof (byte_range c).
  destruct t as [|c1 [|c2 [|c3 t]]];
    try pose proof (byte_range c1); try pose proof (byte_range c2);
    try pose proof (byte_range c3);
    cbv zeta; split_ifs; cbn [fst]; bools; intros; Z.div_mod_to_equations; lia.
Qed.

(** Reading the first rune of a non-empty string is not disturbed by an ASCII
    byte put behind the string. *)
Lemma decode_app_ascii (c : ascii) (t : string) (b : ascii) (u : string) :
  byte b < 0x80 ->
  DecodeRuneInString (String c t ++ String b u) = DecodeRuneInString (String c t).
Proof.
  intros B. unfold DecodeRuneInString, RuneSelf, RuneError, locb, hicb.
  destruct t as [|c1 [|c2 [|c3 t]]]; cbn [append];
    cbv zeta; split_ifs; try reflexivity; bools;
    repeat match goal with
      | H : _ || _ = true |- _ => apply orb_true_iff in H; destruct H
      end; lia.
Qed.

Lemma encode_ascii (r : Z) :
  0 <= r < 0x80 -> EncodeRune r = String (of_byte r) "".
Proof.
  intros H. unfold EncodeRune.
  destruct ((0 <=? r) && (r <=? 127)) eqn:E; [reflexivity|].
  apply andb_false_iff in E. destruct E; lia.
Qed.

Lemma decode_encode (r : Z) (t : string) :
  ValidRune r = true ->
  DecodeRuneInString (EncodeRune r ++ t) = (r, len (EncodeRune r)).
Proof.
  intros V. apply ValidRune_iff in V.
  unfold EncodeRune.
  destruct ((0 <=? r) && (r <=? 127)) eqn:E1.
  { bools. cbn [bytes1 append]. rewrite decode_ascii by (rewrite byte_of_byte; lia).
    rewrite byte_of_byte by lia. reflexivity. }
  destruct ((0 <=? r) && (r <=? 2047)) eqn:E2.
  { bools. assert (128 <= r) by (apply andb_false_iff in E1; destruct E1; lia).
    unfold bytes2, bytes1. cbn [append].
    unfold DecodeRuneInString, RuneSelf, locb, hicb.
    rewrite !byte_of_byte by (Z.div_mod_to_equations; lia).
    cbv zeta. split_ifs; bools;
      repeat match goal with
        | H : _ || _ = true |- _ => apply orb_true_iff in H; destruct H
        end;
      try (exfalso; Z.div_mod_to_equations; lia).
    all: f_equal; first [reflexivity | Z.div_mod_to_equations; lia]. }
  assert (V' : ValidRune r = true) by (now apply ValidRune_iff).
  rewrite V'. cbn [negb].
  assert (2048 <= r) by (apply andb_false_iff in E2; destruct E2; lia).
  destruct (r <=? 65535) eqn:E3.
  { unfold bytes3, bytes2, bytes1. cbn [append].
    unfold DecodeRuneInString, RuneSelf, locb, hicb.
    rewrite !byte_of_byte by (Z.div_mod_to_equations; lia).
    cbv zeta. split_ifs; bools;
      repeat match goal with
        | H : _ || _ = true |- _ => apply orb_true_iff in H; destruct H
        end;
      try (exfalso; Z.div_mod_to_equations; lia).
    all: f_equal; first [reflexivity | Z.div_mod_to_equations; lia]. }
  { unfold bytes4, bytes3, bytes2, bytes1. cbn [append].
    unfold DecodeRuneInString, RuneSelf, locb, hicb.
    rewrite !byte_of_byte by (Z.div_mod_to_equations; lia).
    cbv zeta. split_ifs; bools;
      repeat match goal with
        | H : _ || _ = true |- _ => apply orb_true_iff in H; destruct H
        end;
      try (exfalso; Z.div_mod_to_equations; lia).
    all: f_equal; first [reflexivity | Z.div_mod_to_equations; lia]. }
Qed.

Lemma of_byte_neq (x : Z) (c : ascii) :
  0 <= x < 256 -> x <> byte c -> Ascii.eqb (of_byte x) c = false.
Proof.
  intros R N. apply Ascii.eqb_neq. intros E. apply N.
  rewrite <- E. now rewrite byte_of_byte.
Qed.

(** The encoding of anything but an ASCII rune holds no ASCII byte. *)
Lemma encode_high (r : Z) (c : ascii) :
  byte c < 0x80 -> ~ (0 <= r < 0x80) -> Spec.occurs c (EncodeRune r) = false.
Proof.
  intros C N. unfold EncodeRune, RuneError.
  destruct ((0 <=? r) && (r <=? 127)) eqn:E1; [bools; lia|].
  destruct ((0 <=? r) && (r <=? 2047)) eqn:E2;
    [|destruct (negb (ValidRune r)) eqn:E3; [|destruct (r <=? 65535) eqn:E4]];
    try (apply negb_false_iff, ValidRune_iff in E3);
    unfold bytes4, bytes3, bytes2, bytes1; cbn [Spec.occurs]; bools;
    rewrite !of_byte_neq by (Z.div_mod_to_equations; lia); reflexivity.
Qed.

Lemma encode_nonempty (r : Z) : exists c t, EncodeRune r = String c t.
Proof.
  unfold EncodeRune, bytes4, bytes3, bytes2, bytes1.
  repeat match goal with
    | |- context [if ?b then _ else _] => destruct b
    end; eexists; eexists; reflexivity.
Qed.

End Utf8Facts.

(** ** [strings.Map], rune by rune *)

Section MapFacts.

Import strings utf8.

Variable f : Z -> Z.

Lemma mapLoop_nil (n : nat) : mapLoop n f "" = "".
Proof. now destruct n. Qed.

Lemma mapLoop_enough (n m : nat) (s : string) :
  (String.length s <= n)%nat -> (String.length s <= m)%nat ->
  mapLoop n f s = mapLoop m f s.
Proof.
  revert m s. induction n as [|n IH]; intros m s Hn Hm.
  - destruct s; [|simpl in Hn; lia]. now rewrite !mapLoop_nil.
  - destruct s as [|c t]; [now rewrite !mapLoop_nil|].
    destruct m as [|m]; [simpl in Hm; lia|].
    cbn [mapLoop].
    pose proof (decode_width c t) as W.
    destruct (DecodeRuneInString (String c t)) as [r w]. cbn [snd] in W.
    f_equal. unfold slice_from. unfold len in W.
    apply IH; rewrite length_drop; simpl String.length in *; lia.
Qed.

Lemma Map_cons (c : ascii) (t : string) :
  Map f (String c t) =
  (if 0 <=? f (fst (DecodeRuneInString (String c t)))
   then EncodeRune (f (fst (DecodeRuneInString (String c t)))) else "")
  ++ Map f (slice_from (String c t) (snd (DecodeRuneInString (String c t)))).
Proof.
  unfold Map. cbn [String.length mapLoop].
  pose proof (decode_width c t) as W.
  destruct (DecodeRuneInString (String c t)) as [r w]. cbn [fst snd] in *.
  f_equal. unfold slice_from. unfold len in W.
  apply mapLoop_enough; rewrite ?length_drop; simpl String.length in *; lia.
Qed.

(** Induction on a string along the runes that [Map] reads. *)
Lemma rune_ind (P : string -> Prop) :
  P "" ->
  (forall c t,
      P (slice_from (String c t) (snd (DecodeRuneInString (String c t)))) ->
      P (String c t)) ->
  forall s, P s.
Proof.
  intros H0 H1 s.
  assert (G : forall n s, (String.length s <= n)%nat -> P s).
  { induction n as [|n IH]; intros [|c t] L; try exact H0.
    - simpl in L; lia.
    - apply H1. apply IH. pose proof (decode_width c t) as W.
      unfold slice_from, len in *. rewrite length_drop.
      simpl String.length in *. lia. }
  apply (G (String.length s)). lia.
Qed.

Lemma Map_app_ascii (s : string) (b : ascii) :
  byte b < 0x80 -> Map f (s ++ String b "") = Map f s ++ Map f (String b "").
Proof.
  intros B. induction s as [|c t IH] using rune_ind; [reflexivity|].
  change (String c t ++ String b "") with (String c (t ++ String b "")).
  rewrite Map_cons.
  change (String c (t ++ String b "")) with (String c t ++ String b "").
  rewrite decode_app_ascii by exact B. rewrite (Map_cons c t).
  pose proof (decode_width c t) as W.
  destruct (DecodeRuneInString (String c t)) as [r w]. cbn [fst snd] in *.
  unfold slice_from in *. rewrite drop_app_le by (unfold len in W; lia).
  rewrite IH. now rewrite app_assoc_s.
Qed.

(** [Map] puts an ASCII byte into its output only where the mapping returns
    it. *)
Lemma Map_no_byte (c0 : ascii) (s : string) :
  byte c0 < 0x80 ->
  (forall r, ValidRune r = true -> f r = byte c0 -> r = byte c0) ->
  Spec.occurs c0 s = false -> Spec.occurs c0 (Map f s) = false.
Proof.
  intros C F. induction s as [|c t IH] using rune_ind; [reflexivity|].
  intros O. rewrite Map_cons, occurs_app.
  rewrite IH by (unfold slice_from; now apply occurs_drop).
  rewrite orb_false_r.
  pose proof (decode_valid (String c t)) as V.
  pose proof (decode_ascii_inv c t) as A.
  pose proof (decode_ascii c t) as D.
  destruct (DecodeRuneInString (String c t)) as [r w]. cbn [fst snd] in *.
  destruct (0 <=? f r) eqn:P; [|reflexivity].
  destruct (Z.ltb (f r) 0x80) eqn:Q.
  - rewrite encode_ascii by lia. cbn [Spec.occurs]. rewrite orb_false_r.
    apply Ascii.eqb_neq. intros E.
    assert (Fr : f r = byte c0) by (rewrite <- E; rewrite byte_of_byte; lia).
    specialize (F r V Fr). specialize (A ltac:(lia)). specialize (D A).
    injection D as D _. simpl in O. apply orb_false_iff in O as [O _].
    apply Ascii.eqb_neq in O. apply O. apply byte_inj. lia.
  - apply encode_high; [exact C | lia].
Qed.

(** Mapping twice with an idempotent mapping that keeps runes valid is
    mapping once. *)
Lemma Map_idem (s : string) :
  (forall r, ValidRune r = true -> ValidRune (f r) = true) ->
  (forall r, ValidRune r = true -> f (f r) = f r) ->
  Map f (Map f s) = Map f s.
Proof.
  intros V I. induction s as [|c t IH] using rune_ind; [reflexivity|].
  rewrite Map_cons.
  pose proof (decode_valid (String c t)) as Vr.
  destruct (DecodeRuneInString (String c t)) as [r w]. cbn [fst snd] in *.
  set (rest := Map f (slice_from (String c t) w)) in *.
  pose proof (V r Vr) as Vf. pose proof (proj1 (ValidRune_iff _) Vf) as Rf.
  destruct (0 <=? f r) eqn:P; [|lia].
  destruct (encode_nonempty (f r)) as (c' & t' & E).
  assert (D : DecodeRuneInString (EncodeRune (f r) ++ rest)
              = (f r, len (EncodeRune (f r)))) by (now apply decode_encode).
  rewrite E in *. cbn [append] in *. rewrite Map_cons, D. cbn [fst snd].
  rewrite (I r Vr), P.
  change (String c' (t' ++ rest)) with (String c' t' ++ rest).
  rewrite slice_from_len_app. rewrite E. cbn [append]. now rewrite IH.
Qed.

End MapFacts.

(** ** [strings.ToLower] over any case tables *)

Section ToLowerFacts.

Import strings utf8.

Context `{T : unicode.CaseTables}.

Lemma lower_byte_rule (c : ascii) :
  byte c < 0x80 -> of_byte (unicode.ToLower (byte c)) = lowerByte c.
Proof.
  destruct c as [[] [] [] [] [] [] [] []]; intros H;
    first [reflexivity | exfalso; vm_compute in H; discriminate].
Qed.

Lemma lower_byte_range (c : ascii) :
  byte c < 0x80 -> 0 <= unicode.ToLower (byte c) < 0x80.
Proof.
  intros H. pose proof (byte_range c). unfold unicode.ToLower, unicode.MaxASCII.
  destruct (byte c <=? 127) eqn:E; [|lia].
  destruct ((65 <=? byte c) && (byte c <=? 90)) eqn:E2; [|lia].
  apply andb_true_iff in E2. lia.
Qed.

(** On an ASCII string the rune loop and the byte loop agree. *)
Lemma Map_ascii_lower (s : string) :
  isASCII s = true -> Map unicode.ToLower s = mapBytes lowerByte s.
Proof.
  induction s as [|c t IH]; [reflexivity|]. intros A.
  cbn [isASCII] in A. apply andb_true_iff in A as [A1 A2].
  unfold RuneSelf in A1. apply Z.ltb_lt in A1.
  rewrite Map_cons, decode_ascii by exact A1. cbn [fst snd].
  pose proof (lower_byte_range c A1) as R.
  destruct (0 <=? unicode.ToLower (byte c)) eqn:P; [|lia].
  rewrite encode_ascii by exact R. rewrite lower_byte_rule by exact A1.
  change (slice_from (String c t) 1) with t.
  cbn [mapBytes append]. now rewrite IH.
Qed.

Lemma ToLower_Map (s : string) : ToLower s = Map unicode.ToLower s.
Proof.
  unfold ToLower. destruct (isASCII s) eqn:A; [|reflexivity].
  symmetry. now apply Map_ascii_lower.
Qed.

Lemma ToLower_app_dot (s : string) : ToLower (s ++ ".") = ToLower s ++ ".".
Proof.
  rewrite !ToLower_Map. rewrite Map_app_ascii by (vm_compute; reflexivity).
  reflexivity.
Qed.

Context {L : unicode.LowerCaseLaws T}.

Lemma rune_ToLower_valid (r : Z) :
  ValidRune r = true -> ValidRune (unicode.ToLower r) = true.
Proof.
  intros V. unfold unicode.ToLower, unicode.MaxASCII.
  destruct (r <=? 127) eqn:E.
  - apply ValidRune_iff in V. apply ValidRune_iff.
    destruct ((65 <=? r) && (r <=? 90)) eqn:E2; [apply andb_true_iff in E2|]; lia.
  - apply unicode.lowerCase_valid; [unfold unicode.MaxASCII; lia | exact V].
Qed.

Lemma rune_ToLower_idem (r : Z) :
  ValidRune r = true -> unicode.ToLower (unicode.ToLower r) = unicode.ToLower r.
Proof.
  intros V. unfold unicode.ToLower at 2 3. unfold unicode.MaxASCII.
  destruct (r <=? 127) eqn:E.
  - unfold unicode.ToLower, unicode.MaxASCII.
    destruct ((65 <=? r) && (r <=? 90)) eqn:E2.
    + apply andb_true_iff in E2.
      destruct (r + (97 - 65) <=? 127) eqn:E3; [|lia].
      destruct ((65 <=? r + (97 - 65)) && (r + (97 - 65) <=? 90)) eqn:E4;
        [apply andb_true_iff in E4; lia | reflexivity].
    + now rewrite E, E2.
  - apply unicode.lowerCase_idem; [unfold unicode.MaxASCII; lia | exact V].
Qed.

Lemma rune_ToLower_separator (r b : Z) :
  b = 46 \/ b = 47 \/ b = 58 ->
  ValidRune r = true -> unicode.ToLower r = b -> r = b.
Proof.
  intros B V. unfold unicode.ToLower, unicode.MaxASCII.
  destruct (r <=? 127) eqn:E.
  - destruct ((65 <=? r) && (r <=? 90)) eqn:E2; [apply andb_true_iff in E2|]; lia.
  - intros H.
    destruct (unicode.lowerCase_separator r) as (H1 & H2 & H3);
      [unfold unicode.MaxASCII; lia | exact V | lia].
Qed.

Lemma ToLower_idem (s : string) : ToLower (ToLower s) = ToLower s.
Proof.
  rewrite !ToLower_Map.
  apply Map_idem; [exact rune_ToLower_valid | exact rune_ToLower_idem].
Qed.

(** Lower-casing brings no ".", "/" or ":" into a string. *)
Lemma ToLower_no_separator (c : ascii) (s : string) :
  c = "."%char \/ c = "/"%char \/ c = ":"%char ->
  Spec.occurs c s = false -> Spec.occurs c (ToLower s) = false.
Proof.
  intros C. rewrite ToLower_Map. apply Map_no_byte.
  - destruct C as [-> | [-> | ->]]; vm_compute; reflexivity.
  - intros r V. apply rune_ToLower_separator; [|exact V].
    destruct C as [-> | [-> | ->]]; vm_compute; auto.
Qed.

End ToLowerFacts.

(** ** The Latin tables *)

Section LatinTables.

Import utf8.

Lemma latinLower_above (r : Z) : 0x180 <= r -> unicode.latinLower r = r.
Proof.
  intros H. unfold unicode.latinLower.
  repeat match goal with
    | |- context [?a <=? ?b] => destruct (a <=? b) eqn:?; try lia
    | |- context [?a =? ?b] => destruct (a =? b) eqn:?; try lia
    end.
  reflexivity.
Qed.

Lemma below_by_cases (P : Z -> bool) (n : nat) :
  forallb (fun k => P (Z.of_nat k)) (seq 0 n) = true ->
  forall r, 0 <= r < Z.of_nat n -> P r = true.
Proof.
  intros H r R. rewrite forallb_forall in H.
  specialize (H (Z.to_nat r)). rewrite Z2Nat.id in H by lia.
  apply H. apply in_seq. lia.
Qed.

Lemma latinLower_below (r : Z) :
  0 <= r < 0x180 ->
  (ValidRune (unicode.latinLower r)
   && (@unicode.ToLower unicode.latin (unicode.latinLower r) =? unicode.latinLower r)
   && negb (unicode.latinLower r =? 46)
   && negb (unicode.latinLower r =? 47)
   && negb (unicode.latinLower r =? 58)
   || (r <=? 127)) = true.
Proof.
  apply (below_by_cases
           (fun r => ValidRune (unicode.latinLower r)
                     && (@unicode.ToLower unicode.latin (unicode.latinLower r)
                         =? unicode.latinLower r)
                     && negb (unicode.latinLower r =? 46)
                     && negb (unicode.latinLower r =? 47)
                     && negb (unicode.latinLower r =? 58)
                     || (r <=? 127)) 384).
  vm_compute. reflexivity.
Qed.

(** The Latin tables keep the laws of the lower-case table. *)
Lemma latin_laws : unicode.LowerCaseLaws unicode.latin.
Proof.
  assert (A : forall r, unicode.MaxASCII < r -> ValidRune r = true ->
                ValidRune (unicode.latinLower r) = true /\
                @unicode.ToLower unicode.latin (unicode.latinLower r)
                = unicode.latinLower r /\
                unicode.latinLower r <> 46 /\ unicode.latinLower r <> 47 /\
                unicode.latinLower r <> 58).
  { intros r M V. unfold unicode.MaxASCII in M.
    destruct (Z.ltb r 0x180) eqn:E.
    - pose proof (latinLower_below r ltac:(lia)) as H.
      apply orb_true_iff in H. destruct H as [H|H]; [|lia].
      do 4 (apply andb_true_iff in H; destruct H as [H ?]).
      repeat match goal with
        | H : negb _ = true |- _ => apply negb_true_iff in H
        end.
      repeat match goal with
        | H : (_ =? _) = true |- _ => apply Z.eqb_eq in H
        | H : (_ =? _) = false |- _ => apply Z.eqb_neq in H
        end.
      repeat split; assumption.
    - rewrite latinLower_above by lia.
      unfold unicode.ToLower, unicode.MaxASCII. cbn [unicode.lowerCase unicode.latin].
      destruct (r <=? 127) eqn:E2; [lia|].
      rewrite latinLower_above by lia. repeat split; try lia. exact V. }
  constructor; intros r M V; destruct (A r M V) as (H1 & H2 & H3); auto.
Qed.

End LatinTables.

(** ** What normalisation leaves behind *)

Section NormalizeFacts.

Import strings.

Context `{T : unicode.CaseTables}.
Context {L : unicode.LowerCaseLaws T}.

Lemma normalize_no_slash (x : string) : Spec.occurs "/" (Spec.normalize x) = false.
Proof.
  unfold Spec.normalize, Spec.lower_case.
  apply ToLower_no_separator; [auto|].
  apply occurs_strip, occurs_truncate, occurs_truncate_same.
Qed.

Lemma normalize_no_colon (x : string) : Spec.occurs ":" (Spec.normalize x) = false.
Proof.
  unfold Spec.normalize, Spec.lower_case.
  apply ToLower_no_separator; [auto|].
  apply occurs_strip, occurs_truncate_same.
Qed.

Lemma normalize_lower (x : string) : ToLower (Spec.normalize x) = Spec.normalize x.
Proof. unfold Spec.normalize, Spec.lower_case. apply ToLower_idem. Qed.

Lemma append_inj_l (a b c : string) : a ++ c = b ++ c -> a = b.
Proof.
  revert b. induction a as [|x a IH]; intros [|y b] E.
  - reflexivity.
  - simpl in E. apply (f_equal String.length) in E. simpl in E.
    rewrite length_app in E. lia.
  - simpl in E. apply (f_equal String.length) in E. simpl in E.
    rewrite length_app in E. lia.
  - simpl in E. inversion E. f_equal. now apply IH.
Qed.

(** Stripping the trailing dot of a lower-cased string leaves a lower-cased
    string. *)
Lemma ToLower_strip (y : string) :
  ToLower y = y -> ToLower (Spec.strip_trailing_dot y) = Spec.strip_trailing_dot y.
Proof.
  intros E. destruct (strip_trailing_dot_cases y) as [H|H].
  - now rewrite H.
  - remember (Spec.strip_trailing_dot y) as z eqn:Z. clear Z.
    rewrite H in E. rewrite ToLower_app_dot in E.
    now apply append_inj_l in E.
Qed.

(** A second pass finds nothing to do but strip one more trailing dot. *)
Lemma normalize_twice (x : string) :
  Spec.normalize (Spec.normalize x) = Spec.strip_trailing_dot (Spec.normalize x).
Proof.
  set (y := Spec.normalize x).
  unfold Spec.normalize at 1. fold y.
  rewrite strip_scheme_id by apply normalize_no_colon.
  rewrite (truncate_at_id "/") by apply normalize_no_slash.
  rewrite (truncate_at_id ":") by apply normalize_no_colon.
  unfold Spec.lower_case. apply ToLower_strip. apply normalize_lower.
Qed.

Lemma TrimSuffix_fixed (s suf : string) :
  suf <> "" -> (TrimSuffix s suf = s <-> HasSuffix s suf = false).
Proof.
  intros N. split.
  - intros H. destruct (HasSuffix s suf) eqn:E; [|reflexivity].
    apply HasSuffix_inv in E. rewrite H in E.
    apply (f_equal String.length) in E. rewrite length_app in E.
    destruct suf; [congruence | simpl in E; lia].
  - intros H. unfold TrimSuffix. now rewrite H.
Qed.

End NormalizeFacts.

(** ** Splitting and joining labels *)

Section SplitJoin.

Import strings.

Lemma countFrom_nonneg (fuel : nat) (s sub : string) : 0 <= countFrom fuel s sub.
Proof.
  revert s; induction fuel as [|fuel IH]; intros s; cbn [countFrom]; [lia|].
  destruct (Index s sub <? 0); [lia|].
  specialize (IH (slice_from s (Index s sub + len sub))). lia.
Qed.

(** The fuel of [Count] is enough: with a non-empty [substr] every restart
    consumes at least one byte, so any fuel from [len(s)] on counts the same. *)
Lemma countFrom_enough (sub : string) (f1 f2 : nat) (s : string) :
  sub <> "" ->
  (String.length s <= f1)%nat -> (String.length s <= f2)%nat ->
  countFrom f1 s sub = countFrom f2 s sub.
Proof.
  intros Ns. revert f2 s.
  assert (E0 : Index "" sub = -1).
  { rewrite Index_eq. destruct sub; [congruence|]. now rewrite HasPrefix_empty. }
  assert (P : 1 <= len sub).
  { destruct sub; [congruence|]. rewrite len_cons. pose proof (len_nonneg sub). lia. }
  induction f1 as [|f1 IH]; intros f2 s L1 L2.
  - destruct s; [|simpl in L1; lia].
    destruct f2; cbn [countFrom]; [reflexivity|]. now rewrite E0.
  - destruct f2 as [|f2].
    + destruct s; [|simpl in L2; lia]. cbn [countFrom]. now rewrite E0.
    + cbn [countFrom]. destruct (Index s sub <? 0) eqn:E; [reflexivity|].
      f_equal. unfold slice_from.
      apply IH; rewrite length_drop; lia.
Qed.

Lemma genSplit_nonempty (s sep : string) (n : nat) : genSplit s sep (S n) <> [].
Proof.
  destruct n as [|n]; simpl; [discriminate|].
  destruct (Index s sep <? 0); discriminate.
Qed.

(** [Split] always returns at least one element. *)
Lemma Split_nonempty (s sep : string) : Split s sep <> [].
Proof.
  unfold Split, SplitN. change (-1 =? 0) with false. change (-1 <? 0) with true.
  cbv iota zeta.
  pose proof (countFrom_nonneg (String.length s) s sep) as H. fold (Count s sep) in H.
  pose proof (len_nonneg s) as L.
  destruct (len s + 1 <? Count s sep + 1).
  - replace (Z.to_nat (len s + 1)) with (S (Z.to_nat (len s))) by lia.
    apply genSplit_nonempty.
  - replace (Z.to_nat (Count s sep + 1)) with (S (Z.to_nat (Count s sep))) by lia.
    apply genSplit_nonempty.
Qed.

Lemma index_slice_last {A : Type} (xs : list A) (d : A) :
  xs <> [] ->
  index_slice xs (Z.of_nat (List.length xs) - 1) = Return (last xs d).
Proof.
  intros N. unfold index_slice.
  destruct xs as [|x xs]; [congruence|]. clear N.
  assert (L : (0 < List.length (x :: xs))%nat) by (simpl; lia).
  remember (x :: xs) as l eqn:El. clear El.
  destruct (Z.of_nat (List.length l) - 1 <? 0) eqn:E1; [lia|].
  destruct (Z.of_nat (List.length l) <=? Z.of_nat (List.length l) - 1) eqn:E2; [lia|].
  simpl orb. cbv iota.
  replace (Z.to_nat (Z.of_nat (List.length l) - 1)) with (Nat.pred (List.length l)) by lia.
  clear E1 E2. induction l as [|y l IH]; [simpl in L; lia|].
  destruct l as [|z l]; [reflexivity|].
  change (last (y :: z :: l) d) with (last (z :: l) d).
  rewrite <- IH by (simpl; lia). reflexivity.
Qed.

Lemma Index_absent (c : ascii) (s : string) :
  Contains s (String c "") = false -> Index s (String c "") = -1.
Proof.
  unfold Contains. intros H. pose proof (Index_ge s (String c "")).
  destruct (0 <=? Index s (String c "")) eqn:E; [discriminate | lia].
Qed.

Lemma Index_first (c : ascii) (l rest : string) :
  Contains l (String c "") = false ->
  Index (l ++ String c rest) (String c "") = len l.
Proof.
  rewrite Contains_occurs.
  induction l as [|a l IH]; intros H; rewrite Index_eq.
  - change ("" ++ String c rest) with (String c rest).
    rewrite HasPrefix_cons, HasPrefix_nil, Ascii.eqb_refl. reflexivity.
  - simpl in H. apply orb_false_iff in H as [H1 H2].
    change (String a l ++ String c rest) with (String a (l ++ String c rest)).
    rewrite HasPrefix_cons, H1. cbn [andb]. rewrite IH by assumption.
    rewrite len_cons. pose proof (len_nonneg l).
    destruct (len l <? 0) eqn:E; [lia | reflexivity].
Qed.

Lemma Index_first_dot (l rest : string) :
  Contains l "." = false -> Index (l ++ "." ++ rest) "." = len l.
Proof. apply (Index_first "." l rest). Qed.

Lemma Join_cons2 (a b : string) (rest : list string) (sep : string) :
  Join (a :: b :: rest) sep = a ++ sep ++ Join (b :: rest) sep.
Proof. reflexivity. Qed.

Lemma slice_dot_to (l rest : string) : slice_to (l ++ "." ++ rest) (len l) = l.
Proof. apply slice_to_len_app. Qed.

Lemma slice_dot_from (l rest : string) :
  slice_from (l ++ "." ++ rest) (len l + len ".") = rest.
Proof.
  rewrite <- app_assoc_s. rewrite <- len_app. apply slice_from_len_app.
Qed.

Lemma genSplit_Join (ls : list string) (n : nat) :
  ls <> [] -> Forall (fun l => Contains l "." = false) ls ->
  (List.length ls <= n)%nat ->
  genSplit (Join ls ".") "." n = ls.
Proof.
  revert n; induction ls as [|l ls IH]; intros n N F L; [congruence|].
  inversion F as [|? ? Fl Fls]; subst.
  destruct ls as [|l2 rest].
  - destruct n as [|[|n]]; simpl in *; [lia | reflexivity |].
    rewrite (Index_absent "." l Fl). reflexivity.
  - destruct n as [|[|n]]; simpl in L; [lia | lia |].
    rewrite Join_cons2.
    change (genSplit (l ++ "." ++ Join (l2 :: rest) ".") "." (S (S n)))
      with (let s := l ++ "." ++ Join (l2 :: rest) "." in
            if Index s "." <? 0 then [s]
            else slice_to s (Index s ".")
                 :: genSplit (slice_from s (Index s "." + len ".")) "." (S n)).
    cbv zeta. rewrite (Index_first_dot l (Join (l2 :: rest) ".") Fl).
    pose proof (len_nonneg l). destruct (len l <? 0) eqn:E; [lia|].
    rewrite slice_dot_to, slice_dot_from.
    rewrite IH; [reflexivity | discriminate | assumption | simpl; lia].
Qed.

Lemma countFrom_Join (ls : list string) (fuel : nat) :
  ls <> [] -> Forall (fun l => Contains l "." = false) ls ->
  (List.length ls <= S fuel)%nat ->
  countFrom fuel (Join ls ".") "." = Z.of_nat (List.length ls) - 1.
Proof.
  revert fuel; induction ls as [|l ls IH]; intros fuel N F L; [congruence|].
  inversion F as [|? ? Fl Fls]; subst.
  destruct ls as [|l2 rest].
  - destruct fuel as [|fuel]; simpl; [reflexivity|].
    rewrite (Index_absent "." l Fl). reflexivity.
  - destruct fuel as [|fuel]; [simpl in L; lia|].
    rewrite Join_cons2. cbn [countFrom].
    rewrite (Index_first_dot l (Join (l2 :: rest) ".") Fl).
    pose proof (len_nonneg l). destruct (len l <? 0) eqn:E; [lia|].
    rewrite slice_dot_from.
    rewrite IH; [|discriminate | assumption | simpl in *; lia].
    simpl List.length. lia.
Qed.

Lemma length_Join (ls : list string) :
  (List.length ls <= S (String.length (Join ls ".")))%nat.
Proof.
  induction ls as [|l ls IH]; [simpl; lia|].
  destruct ls as [|l2 rest]; [simpl; lia|].
  rewrite Join_cons2, !length_app.
  change (String.length ".") with 1%nat.
  change (List.length (l :: l2 :: rest)) with (S (List.length (l2 :: rest))).
  lia.
Qed.

(** Splitting at "." undoes joining with ".", for dot-free labels. *)
Lemma Split_Join (ls : list string) :
  ls <> [] -> Forall (fun l => Contains l "." = false) ls ->
  Split (Join ls ".") "." = ls.
Proof.
  intros N F. unfold Split, SplitN.
  change (-1 =? 0) with false. change (-1 <? 0) with true. cbv iota zeta.
  unfold Count. rewrite countFrom_Join by (auto using length_Join).
  pose proof (length_Join ls) as L. unfold len.
  apply genSplit_Join; auto.
  destruct (_ <? _); lia.
Qed.

Lemma Split_dot_free (s : string) : Contains s "." = false -> Split s "." = [s].
Proof.
  intros H. apply (Split_Join [s]); [discriminate|]. now constructor.
Qed.

End SplitJoin.

(** ** [Extract] in closed form *)

Section ExtractFacts.

Context `{T : unicode.CaseTables}.

Import strings.

Variable PublicSuffix : string -> string * bool.

(** Both reads of the lookup give the same suffix, the emptiness test on
    [parts] never fires and the index [len(parts)-1] is always in range. *)
Lemma Extract_eq (s : string) :
  Extract PublicSuffix s =
  let host := cleanDomain s in
  let suffix := fst (PublicSuffix host) in
  if String.eqb host suffix then Return (Some (mkResult "" "" suffix), None)
  else
    let parts := Split (TrimSuffix host ("." ++ suffix)) "." in
    Return (Some (mkResult (Join (removelast parts) ".") (last parts "") suffix),
            None).
Proof.
  unfold Extract. cbv zeta.
  destruct (PublicSuffix (cleanDomain s)) as [suffix icann].
  cbn [fst].
  replace (if negb icann then suffix else suffix) with suffix by (now destruct icann).
  destruct (String.eqb (cleanDomain s) suffix); [reflexivity|].
  set (parts := Split (TrimSuffix (cleanDomain s) ("." ++ suffix)) ".").
  pose proof (Split_nonempty (TrimSuffix (cleanDomain s) ("." ++ suffix)) ".") as N.
  fold parts in N.
  rewrite (index_slice_last parts "" N).
  destruct parts as [|p ps]; [congruence|].
  pose proof (eq_refl : List.length (p :: ps) = S (List.length ps)) as L.
  destruct (Z.of_nat (List.length (p :: ps)) =? 0) eqn:E0; [lia|].
  rewrite removelast_firstn_len.
  replace (Nat.pred (List.length (p :: ps))) with (List.length (p :: ps) - 1)%nat by lia.
  destruct (1 <? Z.of_nat (List.length (p :: ps))) eqn:E1; [reflexivity|].
  destruct ps as [|q ps]; [reflexivity|].
  pose proof (eq_refl : List.length (q :: ps) = S (List.length ps)) as L2. lia.
Qed.

End ExtractFacts.

(** ** The fallback of the modelled lookup *)

Section Fallback.

Import strings publicsuffix.

Variable rules : SuffixRuleSet.

Lemma lookup_Some (k : RuleKind) (pattern : string) (r : Rule) :
  lookup rules k pattern = Some r ->
  In r rules /\ kind r = k /\ labels r = pattern.
Proof.
  unfold lookup. intros H. apply find_some in H as [I H].
  apply andb_true_iff in H as [H1 H2]. apply String.eqb_eq in H2.
  repeat split; try assumption.
  destruct (kind r), k; simpl in H1; congruence.
Qed.

Lemma unmatched_exception (t : list string) :
  (forall r, In r rules -> rule_matches r t = false) ->
  lookup rules Exception (Join t ".") = None.
Proof.
  intros H. destruct (lookup rules Exception (Join t ".")) as [r|] eqn:E; [|reflexivity].
  apply lookup_Some in E as (I & K & L). specialize (H r I).
  unfold rule_matches in H. rewrite K, L, String.eqb_refl in H. discriminate.
Qed.

Lemma unmatched_matching (t : list string) :
  (forall r, In r rules -> rule_matches r t = false) ->
  matching rules t = None.
Proof.
  intros H. unfold matching.
  destruct (lookup rules Plain (Join t ".")) as [r|] eqn:E.
  - apply lookup_Some in E as (I & K & L). specialize (H r I).
    unfold rule_matches in H. rewrite K, L, String.eqb_refl in H. discriminate.
  - destruct t as [|x [|y t]]; try reflexivity.
    destruct (lookup rules Wildcard (Join (y :: t) ".")) as [r|] eqn:E2; [|reflexivity].
    apply lookup_Some in E2 as (I & K & L). specialize (H r I).
    unfold rule_matches in H. rewrite K, L, String.eqb_refl in H. discriminate.
Qed.

Lemma unmatched_candidates (cands : list (list string)) :
  forallb (fun t => forallb (fun r => negb (rule_matches r t)) rules) cands = true ->
  exception_match rules cands = None /\ longest_match rules cands = None.
Proof.
  induction cands as [|t cands IH]; intros H; [split; reflexivity|].
  simpl in H. apply andb_true_iff in H as [Ht H].
  assert (U : forall r, In r rules -> rule_matches r t = false).
  { intros r I. rewrite forallb_forall in Ht. specialize (Ht r I).
    now apply negb_true_iff in Ht. }
  simpl. rewrite unmatched_exception, unmatched_matching by exact U.
  now apply IH.
Qed.

(** With no matching rule the lookup answers with the last label. *)
Lemma PublicSuffix_fallback (host : string) :
  no_rule_matches rules host = true ->
  PublicSuffix rules host = (last (Split host ".") "", false).
Proof.
  intros H. unfold PublicSuffix.
  destruct (unmatched_candidates (trailing (Split host ".")) H) as [E1 E2].
  now rewrite E1, E2.
Qed.

End Fallback.

(** ** Properties of the normaliser *)

Section Normaliser.

Context `{T : unicode.CaseTables}.
Context {L : unicode.LowerCaseLaws T}.

Import strings.

Lemma strip_scheme_absent (raw : string) :
  Contains raw "://" = false -> Spec.strip_scheme raw = raw.
Proof.
  intros H. apply Contains_after_first in H.
  unfold Spec.strip_scheme. now rewrite H.
Qed.

Lemma strip_scheme_first (pre rest : string) :
  Contains pre "://" = false -> Spec.strip_scheme (pre ++ "://" ++ rest) = rest.
Proof.
  intros H. apply Contains_after_first in H.
  unfold Spec.strip_scheme. now rewrite (after_first_scheme pre rest H).
Qed.

Lemma normalize_host_path (raw h p : string) :
  Spec.strip_scheme raw = h ++ "/" ++ p ->
  Contains h "/" = false -> Contains h ":" = false ->
  Spec.normalize raw = ToLower (TrimSuffix h ".").
Proof.
  intros E Hs Hc. rewrite Contains_occurs in Hs, Hc.
  unfold Spec.normalize, Spec.lower_case. rewrite E.
  change (h ++ "/" ++ p) with (h ++ String "/" p).
  rewrite truncate_at_app by exact Hs.
  rewrite truncate_at_id by exact Hc.
  now rewrite dot_step.
Qed.

(** C4 (as amended): a second pass of [cleanDomain] over its own output does
    nothing but strip one more trailing "."; the output holds no "/" and no
    ":" (hence no scheme, path or port) and is lower-case, but it may still
    end in "."; the second pass returns its input exactly when that input
    does not end in ".".  This holds over any case tables that keep the laws
    of [unicode.LowerCaseLaws]. *)
Theorem cleanDomain_twice (x : string) :
  cleanDomain (cleanDomain x) = TrimSuffix (cleanDomain x) "." /\
  Contains (cleanDomain x) "/" = false /\
  Contains (cleanDomain x) ":" = false /\
  Contains (cleanDomain x) "://" = false /\
  ToLower (cleanDomain x) = cleanDomain x /\
  (cleanDomain (cleanDomain x) = cleanDomain x
   <-> HasSuffix (cleanDomain x) "." = false).
Proof.
  assert (Tw : cleanDomain (cleanDomain x) = TrimSuffix (cleanDomain x) ".").
  { rewrite (cleanDomain_normalize (cleanDomain x)), (cleanDomain_normalize x).
    rewrite normalize_twice. now rewrite dot_step. }
  split; [exact Tw|].
  rewrite !Contains_occurs, Tw, cleanDomain_normalize.
  repeat split.
  - apply normalize_no_slash.
  - apply normalize_no_colon.
  - apply Contains_after_first, after_first_no_colon, normalize_no_colon.
  - apply normalize_lower.
  - apply TrimSuffix_fixed; discriminate.
  - apply TrimSuffix_fixed; discriminate.
Qed.

(** C6: [cleanDomain] is the composition of the five steps in the order the
    specification gives them (scheme, path, port, trailing dot, case).  So
    once the scheme step is done, whatever follows the first "/" plays no
    role: a host part without ":" is kept whole however many ":" the path
    holds, with or without a scheme in front; and everything before the first
    "://" is discarded, its ":" included. *)
Theorem cleanDomain_step_order :
  (forall raw, cleanDomain raw = Spec.normalize raw) /\
  (forall h p,
      Contains (h ++ "/" ++ p) "://" = false ->
      Contains h "/" = false -> Contains h ":" = false ->
      cleanDomain (h ++ "/" ++ p) = ToLower (TrimSuffix h ".")) /\
  (forall pre h p,
      Contains pre "://" = false ->
      Contains h "/" = false -> Contains h ":" = false ->
      cleanDomain (pre ++ "://" ++ h ++ "/" ++ p) = ToLower (TrimSuffix h ".")) /\
  (forall pre rest,
      Contains pre "://" = false ->
      cleanDomain (pre ++ "://" ++ rest)
      = Spec.lower_case
          (Spec.strip_trailing_dot
             (Spec.truncate_at ":" (Spec.truncate_at "/" rest)))).
Proof.
  repeat split.
  - apply cleanDomain_normalize.
  - intros h p Hn Hs Hc. rewrite cleanDomain_normalize.
    apply (normalize_host_path _ h p); auto using strip_scheme_absent.
  - intros pre h p Hn Hs Hc. rewrite cleanDomain_normalize.
    apply (normalize_host_path _ h p); auto using strip_scheme_first.
  - intros pre rest Hn. rewrite cleanDomain_normalize.
    unfold Spec.normalize. now rewrite strip_scheme_first.
Qed.

End Normaliser.

(** ** Properties of [Extract] and of the accessors *)

Section ExtractProperties.

Context `{T : unicode.CaseTables}.

Import strings.

(** C1: whatever the lookup and whatever the input string, [Extract] returns
    (it does not panic), with a non-nil [*Result] and a nil error. *)
Theorem Extract_total (PublicSuffix : string -> string * bool) (domain : string) :
  exists r : Result, Extract PublicSuffix domain = Return (Some r, None).
Proof.
  rewrite Extract_eq. cbv zeta.
  destruct (String.eqb _ _); eexists; reflexivity.
Qed.

(** C2 (as amended): when the normalised host is N dot-free leading labels,
    a dot-free label and then the suffix, all dot-joined, and that suffix is
    the public suffix the lookup computes for this host, [Extract] returns the
    leading labels dot-joined in order as subdomain (the empty string when
    N = 0), the label as domain and the suffix as TLD. *)
Theorem Extract_labels_before_suffix
    (PublicSuffix : string -> string * bool)
    (s : string) (leading : list string) (label suffix : string) :
  Forall (fun l => Contains l "." = false) leading ->
  Contains label "." = false ->
  cleanDomain s = Join (leading ++ [label]) "." ++ "." ++ suffix ->
  fst (PublicSuffix (cleanDomain s)) = suffix ->
  Extract PublicSuffix s
  = Return (Some (mkResult (Join leading ".") label suffix), None).
Proof.
  intros Fl Hl Hh Hs. rewrite Extract_eq. cbv zeta. rewrite Hs, Hh.
  set (pre := Join (leading ++ [label]) ".").
  destruct (String.eqb (pre ++ "." ++ suffix) suffix) eqn:E.
  - apply String.eqb_eq in E. apply (f_equal String.length) in E.
    rewrite !length_app in E. simpl in E. lia.
  - rewrite (TrimSuffix_app pre ("." ++ suffix)). unfold pre.
    rewrite Split_Join.
    + now rewrite removelast_last, last_last.
    + now destruct leading.
    + apply Forall_app. split; [assumption | now constructor].
Qed.

(** C3: when the public suffix computed for the normalised host is the whole
    host, [Extract] returns an empty subdomain, an empty domain and the host as
    TLD. *)
Theorem Extract_suffix_only
    (PublicSuffix : string -> string * bool) (s : string) :
  fst (PublicSuffix (cleanDomain s)) = cleanDomain s ->
  Extract PublicSuffix s
  = Return (Some (mkResult "" "" (cleanDomain s)), None).
Proof.
  intros H. rewrite Extract_eq. cbv zeta. now rewrite H, String.eqb_refl.
Qed.

(** C7: when no rule matches any trailing-label combination of the normalised
    host, [Extract] still returns a result, whose TLD is the last label of the
    host; when that host is a single label, the whole host is the TLD and
    domain and subdomain are empty. *)
Theorem Extract_fallback_last_label
    (rules : publicsuffix.SuffixRuleSet) (s : string) :
  publicsuffix.no_rule_matches rules (cleanDomain s) = true ->
  exists r : Result,
    Extract (publicsuffix.PublicSuffix rules) s = Return (Some r, None) /\
    TLD r = last (Split (cleanDomain s) ".") "" /\
    (Contains (cleanDomain s) "." = false ->
     r = mkResult "" "" (cleanDomain s)).
Proof.
  intros H. rewrite Extract_eq. cbv zeta.
  rewrite (PublicSuffix_fallback rules _ H). cbn [fst].
  destruct (String.eqb (cleanDomain s) (last (Split (cleanDomain s) ".") "")) eqn:E.
  - eexists. split; [reflexivity|]. split; [reflexivity|].
    intros D. now rewrite (Split_dot_free _ D).
  - eexists. split; [reflexivity|]. split; [reflexivity|].
    intros D. rewrite (Split_dot_free _ D) in E. simpl in E.
    now rewrite String.eqb_refl in E.
Qed.

(** C8: [String] is domain, ".", TLD when the domain is not empty and the TLD
    alone when it is; [FQDN] is the dot-join of the non-empty fields among
    subdomain, domain and TLD, in that order; so the registrable domain of
    whatever [Extract] returns is rebuilt from its domain and TLD. *)
Theorem accessors_spec :
  (forall r, Domain r <> "" -> Result_String r = Domain r ++ "." ++ TLD r) /\
  (forall r, Domain r = "" -> Result_String r = TLD r) /\
  (forall r, Result_FQDN r
             = Join (filter (fun p => negb (String.eqb p ""))
                            [Subdomain r; Domain r; TLD r]) ".") /\
  (forall (PublicSuffix : string -> string * bool) (s : string),
      exists r, Extract PublicSuffix s = Return (Some r, None) /\
                (Domain r <> "" -> Result_String r = Domain r ++ "." ++ TLD r) /\
                (Domain r = "" -> Result_String r = TLD r)).
Proof.
  assert (A : forall r, Domain r <> "" -> Result_String r = Domain r ++ "." ++ TLD r).
  { intros r N. unfold Result_String.
    destruct (String.eqb (Domain r) "") eqn:E; [|reflexivity].
    apply String.eqb_eq in E. contradiction. }
  assert (B : forall r, Domain r = "" -> Result_String r = TLD r).
  { intros r E. unfold Result_String. now rewrite E. }
  repeat split; auto.
  - intros [sub dom tld]. unfold Result_FQDN. cbn [Subdomain Domain TLD filter].
    destruct (String.eqb sub ""), (String.eqb dom ""), (String.eqb tld "");
      reflexivity.
  - intros PS s. rewrite Extract_eq. cbv zeta.
    destruct (String.eqb _ _); eexists; (split; [reflexivity | auto]).
Qed.

(** C9: [ExtractFromURL] returns exactly what [Extract] returns, result and
    error alike, on every input. *)
Theorem ExtractFromURL_is_Extract
    (PublicSuffix : string -> string * bool) (url : string) :
  ExtractFromURL PublicSuffix url = Extract PublicSuffix url.
Proof. reflexivity. Qed.

(** C10: the domain can be empty although the host is longer than its suffix:
    for "a..com", whose label before the suffix "com" is empty, [Extract]
    returns subdomain "a", domain "" and TLD "com", with a nil error. *)
Theorem Extract_empty_label_before_suffix
    (PublicSuffix : string -> string * bool) :
  fst (PublicSuffix "a..com") = "com" ->
  cleanDomain "a..com" = "a..com" /\
  "a..com" <> "com" /\
  Extract PublicSuffix "a..com" = Return (Some (mkResult "a" "" "com"), None).
Proof.
  intros H.
  assert (E : cleanDomain "a..com" = "a..com") by (vm_compute; reflexivity).
  split; [exact E|]. split; [discriminate|].
  rewrite Extract_eq. cbv zeta. rewrite E, H.
  vm_compute. reflexivity.
Qed.

End ExtractProperties.

(** ** The repository's tests, replayed on the model *)

Section Tests.

Existing Instance unicode.latin.

Import publicsuffix.

(** [TestCleanDomain] *)
Example TestCleanDomain :
  map cleanDomain
      ["example.com"; "http://example.com"; "https://example.com";
       "example.com/path"; "example.com:8080"; "example.com.";
       "EXAMPLE.COM"; "HTTPS://EXAMPLE.COM:8080/PATH"]
  = ["example.com"; "example.com"; "example.com"; "example.com";
     "example.com"; "example.com"; "example.com"; "example.com"].
Proof. vm_compute. reflexivity. Qed.

(** [TestExtract], over the rules that its inputs touch: the three fields *)
Example TestExtract :
  map (Extract (PublicSuffix sample_rules))
      ["example.com"; "www.example.com"; "a.b.c.example.com"; "example.co.uk";
       "www.example.co.uk"; "https://www.example.com";
       "https://www.example.com/path/to/page"; "https://www.example.com:8080";
       "example.co.jp"; "example.com.br"; "com"; "WWW.EXAMPLE.COM";
       "example.com."; "api.v2.staging.example.com"; "username.github.io"]
  = map (fun r => Return (Some r, None))
      [mkResult "" "example" "com";
       mkResult "www" "example" "com";
       mkResult "a.b.c" "example" "com";
       mkResult "" "example" "co.uk";
       mkResult "www" "example" "co.uk";
       mkResult "www" "example" "com";
       mkResult "www" "example" "com";
       mkResult "www" "example" "com";
       mkResult "" "example" "co.jp";
       mkResult "" "example" "com.br";
       mkResult "" "" "com";
       mkResult "www" "example" "com";
       mkResult "" "example" "com";
       mkResult "api.v2.staging" "example" "com";
       mkResult "" "username" "github.io"].
Proof. vm_compute. reflexivity. Qed.

(** [TestExtract]: the [FQDN] of some of its results *)
Example TestExtract_FQDN :
  map Result_FQDN
      [mkResult "" "example" "com"; mkResult "a.b.c" "example" "com";
       mkResult "www" "example" "co.uk"; mkResult "" "" "com";
       mkResult "" "username" "github.io"]
  = ["example.com"; "a.b.c.example.com"; "www.example.co.uk"; "com";
     "username.github.io"].
Proof. vm_compute. reflexivity. Qed.

(** [TestResultString] *)
Example TestResultString :
  map Result_String
      [mkResult "www" "example" "com"; mkResult "" "" "com";
       mkResult "www" "example" "co.uk"]
  = ["example.com"; "com"; "example.co.uk"].
Proof. vm_compute. reflexivity. Qed.

End Tests.

(** ** More on the normaliser: fixed points, ports, and where its output
       comes from *)

Section NormaliserMore.

Context `{T : unicode.CaseTables}.
Context {L : unicode.LowerCaseLaws T}.

Import strings.

Lemma truncate_at_app_skip (c : ascii) (h rest : string) :
  Spec.occurs c h = false ->
  Spec.truncate_at c (h ++ rest) = h ++ Spec.truncate_at c rest.
Proof.
  induction h as [|a h IH]; simpl; [reflexivity|]. intros H.
  apply orb_false_iff in H as [H1 H2]. now rewrite H1, IH.
Qed.

Lemma normalize_clean_host (h : string) :
  Contains h "/" = false -> Contains h ":" = false ->
  Spec.normalize h = ToLower (TrimSuffix h ".").
Proof.
  rewrite !Contains_occurs. intros Hs Hc.
  unfold Spec.normalize, Spec.lower_case.
  rewrite strip_scheme_id by exact Hc.
  rewrite (truncate_at_id "/") by exact Hs.
  rewrite (truncate_at_id ":") by exact Hc.
  now rewrite dot_step.
Qed.

Lemma normalize_host_port (raw h rest : string) :
  Spec.strip_scheme raw = h ++ ":" ++ rest ->
  Contains h "/" = false -> Contains h ":" = false ->
  Spec.normalize raw = ToLower (TrimSuffix h ".").
Proof.
  rewrite !Contains_occurs. intros E Hs Hc.
  unfold Spec.normalize, Spec.lower_case. rewrite E.
  rewrite truncate_at_app_skip by exact Hs.
  change (Spec.truncate_at "/" (":" ++ rest))
    with (String ":" (Spec.truncate_at "/" rest)).
  rewrite truncate_at_app by exact Hc.
  now rewrite dot_step.
Qed.

Lemma after_first_suffix (sep s r : string) :
  Spec.after_first sep s = Some r -> exists a, s = a ++ r.
Proof.
  induction s as [|c s IH]; rewrite after_first_eq.
  - destruct (prefix sep ""); [|discriminate].
    intros [= <-]. exists (take (String.length sep) ""). now rewrite take_drop.
  - destruct (prefix sep (String c s)).
    + intros [= <-]. exists (take (String.length sep) (String c s)).
      now rewrite take_drop.
    + intros H. destruct (IH H) as [a ->]. now exists (String c a).
Qed.

Lemma strip_scheme_suffix (s : string) : exists a, s = a ++ Spec.strip_scheme s.
Proof.
  unfold Spec.strip_scheme.
  destruct (Spec.after_first "://" s) as [r|] eqn:E.
  - exact (after_first_suffix _ _ _ E).
  - now exists "".
Qed.

Lemma truncate_at_prefix (c : ascii) (s : string) :
  exists b, s = Spec.truncate_at c s ++ b.
Proof.
  induction s as [|a s [b IH]]; simpl.
  - now exists "".
  - destruct (Ascii.eqb a c).
    + now exists (String a s).
    + exists b. simpl. now rewrite <- IH.
Qed.

Lemma strip_trailing_dot_prefix (s : string) :
  exists b, s = Spec.strip_trailing_dot s ++ b.
Proof.
  destruct (strip_trailing_dot_cases s) as [H|H].
  - exists "". rewrite H. clear H. induction s as [|a s IH]; simpl; congruence.
  - now exists ".".
Qed.

(** X1: the strings that [cleanDomain] returns unchanged are exactly those
    without "/" and ":", without an upper-case letter and without a trailing
    ".". *)
Theorem cleanDomain_fixed_point (s : string) :
  cleanDomain s = s <->
  Contains s "/" = false /\ Contains s ":" = false /\
  ToLower s = s /\ HasSuffix s "." = false.
Proof.
  split.
  - intros E. rewrite cleanDomain_normalize in E.
    rewrite !Contains_occurs. repeat split.
    + rewrite <- E. apply normalize_no_slash.
    + rewrite <- E. apply normalize_no_colon.
    + rewrite <- E. apply normalize_lower.
    + apply TrimSuffix_fixed; [discriminate|].
      rewrite dot_step. rewrite <- E at 1. rewrite <- normalize_twice.
      now rewrite !E.
  - intros (Hs & Hc & Hl & Hd). rewrite cleanDomain_normalize.
    rewrite normalize_clean_host by assumption.
    unfold TrimSuffix. now rewrite Hd.
Qed.

(** X2: a port is dropped with everything behind it: when the host part holds
    no "/" and no ":", the input host ":" rest normalises to the host part
    (lower-cased, one trailing "." stripped) whatever [rest] is, both without
    a scheme and behind the first "://". *)
Theorem cleanDomain_drops_port :
  (forall h rest,
      Contains (h ++ ":" ++ rest) "://" = false ->
      Contains h "/" = false -> Contains h ":" = false ->
      cleanDomain (h ++ ":" ++ rest) = ToLower (TrimSuffix h ".")) /\
  (forall pre h rest,
      Contains pre "://" = false ->
      Contains h "/" = false -> Contains h ":" = false ->
      cleanDomain (pre ++ "://" ++ h ++ ":" ++ rest) = ToLower (TrimSuffix h ".")).
Proof.
  split.
  - intros h rest Hn Hs Hc. rewrite cleanDomain_normalize.
    apply (normalize_host_port _ h rest); auto using strip_scheme_absent.
  - intros pre h rest Hn Hs Hc. rewrite cleanDomain_normalize.
    apply (normalize_host_port _ h rest); auto using strip_scheme_first.
Qed.

Lemma normalize_piece (s : string) :
  exists a b,
    s = a ++ Spec.strip_trailing_dot
               (Spec.truncate_at ":" (Spec.truncate_at "/" (Spec.strip_scheme s)))
          ++ b.
Proof.
  destruct (strip_scheme_suffix s) as [a Ea].
  destruct (truncate_at_prefix "/" (Spec.strip_scheme s)) as [b1 E1].
  destruct (truncate_at_prefix ":" (Spec.truncate_at "/" (Spec.strip_scheme s)))
    as [b2 E2].
  destruct (strip_trailing_dot_prefix
              (Spec.truncate_at ":" (Spec.truncate_at "/" (Spec.strip_scheme s))))
    as [b3 E3].
  exists a, (b3 ++ b2 ++ b1).
  rewrite Ea at 1. f_equal. rewrite E1 at 1. rewrite E2 at 1. rewrite E3 at 1.
  now rewrite !app_assoc_s.
Qed.

Lemma isASCII_app (a b : string) : isASCII (a ++ b) = isASCII a && isASCII b.
Proof.
  induction a as [|c a IH]; simpl; [reflexivity|].
  now rewrite IH, andb_assoc.
Qed.

Lemma isASCII_piece (a w b : string) :
  isASCII (a ++ w ++ b) = true -> isASCII w = true.
Proof.
  rewrite !isASCII_app. intros H.
  apply andb_true_iff in H as [_ H]. now apply andb_true_iff in H as [H _].
Qed.

Lemma mapBytes_len (f : ascii -> ascii) (s : string) : len (mapBytes f s) = len s.
Proof.
  unfold len. f_equal. induction s as [|c s IH]; simpl; congruence.
Qed.

(** X3: [cleanDomain] never invents text: its output is the lower-casing of a
    contiguous piece of the input; for an ASCII input it is therefore never
    longer than the input. *)
Theorem cleanDomain_substring (s : string) :
  (exists a w b, s = a ++ w ++ b /\ cleanDomain s = ToLower w) /\
  (isASCII s = true -> len (cleanDomain s) <= len s).
Proof.
  destruct (normalize_piece s) as (a & b & E).
  set (w := Spec.strip_trailing_dot
              (Spec.truncate_at ":" (Spec.truncate_at "/" (Spec.strip_scheme s))))
    in *.
  assert (C : cleanDomain s = ToLower w) by (now rewrite cleanDomain_normalize).
  split.
  - exists a, w, b. split; [exact E | exact C].
  - intros A. rewrite C.
    pose proof (f_equal len E) as EL. rewrite !len_app in EL.
    rewrite E in A.
    unfold ToLower. rewrite (isASCII_piece a w b A), mapBytes_len.
    pose proof (len_nonneg a). pose proof (len_nonneg b). lia.
Qed.

End NormaliserMore.

(** ** Case of the input *)

Section InputCase.

Import strings.

Context `{T : unicode.CaseTables}.

Variable PublicSuffix : string -> string * bool.

Lemma upperByte_ascii (c : ascii) :
  (utf8.byte (upperByte c) <? utf8.RuneSelf) = (utf8.byte c <? utf8.RuneSelf).
Proof. destruct c as [[] [] [] [] [] [] [] []]; reflexivity. Qed.

Lemma isASCII_upperBytes (s : string) :
  isASCII (mapBytes upperByte s) = isASCII s.
Proof.
  induction s as [|c s IH]; simpl; [reflexivity|].
  now rewrite upperByte_ascii, IH.
Qed.

(** On an ASCII input, upper-casing does not change the normalised host. *)
Lemma cleanDomain_ToUpper_ascii (s : string) :
  isASCII s = true -> cleanDomain (ToUpper s) = cleanDomain s.
Proof.
  intros A. unfold ToUpper. rewrite A.
  rewrite !cleanDomain_normalize. unfold Spec.normalize, Spec.lower_case.
  rewrite mapBytes_strip_scheme
    by (apply upperByte_keeps_colon || apply upperByte_keeps_slash).
  rewrite !mapBytes_truncate_at
    by (apply upperByte_keeps_colon || apply upperByte_keeps_slash).
  rewrite mapBytes_strip_trailing_dot by apply upperByte_keeps_dot.
  destruct (normalize_piece s) as (a & b & E).
  set (w := Spec.strip_trailing_dot
              (Spec.truncate_at ":" (Spec.truncate_at "/" (Spec.strip_scheme s))))
    in *.
  rewrite E in A. apply isASCII_piece in A.
  unfold ToLower. rewrite isASCII_upperBytes, A.
  apply lowerBytes_upperBytes.
Qed.

(** C5 (as amended): for an input all of whose bytes are ASCII, upper-casing
    the input does not change what [Extract] returns. *)
Theorem Extract_case_insensitive_ascii (s : string) :
  isASCII s = true ->
  Extract PublicSuffix (ToUpper s) = Extract PublicSuffix s.
Proof.
  intros A. rewrite !Extract_eq. now rewrite cleanDomain_ToUpper_ascii.
Qed.

End InputCase.

(** ** [Split] at a byte: every piece is free of it, and joining gives the
       string back *)

Section SplitMore.

Import strings.

Lemma Index_cut (c : ascii) (s : string) :
  0 <= Index s (String c "") ->
  s = slice_to s (Index s (String c ""))
      ++ String c (slice_from s (Index s (String c "") + 1))
  /\ Spec.occurs c (slice_to s (Index s (String c ""))) = false.
Proof.
  induction s as [|a s IH]; rewrite Index_eq.
  - rewrite HasPrefix_empty. lia.
  - rewrite HasPrefix_cons, HasPrefix_nil, andb_true_r.
    destruct (Ascii.eqb a c) eqn:E.
    + intros _. apply Ascii.eqb_eq in E. subst a.
      rewrite slice_to_0. split; reflexivity.
    + pose proof (Index_ge s (String c "")) as G.
      destruct (Index s (String c "") <? 0) eqn:E2; [lia|]. intros _.
      destruct IH as [I1 I2]; [lia|].
      rewrite slice_to_cons, slice_from_cons by lia.
      split.
      * simpl. now rewrite <- I1.
      * simpl. now rewrite E, I2.
Qed.

Lemma count_app (c : ascii) (a b : string) :
  Bytes.count c (a ++ b) = (Bytes.count c a + Bytes.count c b)%nat.
Proof.
  induction a as [|x a IH]; simpl; [reflexivity|].
  destruct (Ascii.eqb x c); simpl; now rewrite IH.
Qed.

Lemma count_occurs (c : ascii) (s : string) :
  Spec.occurs c s = false <-> Bytes.count c s = 0%nat.
Proof.
  induction s as [|a s IH]; simpl; [tauto|].
  destruct (Ascii.eqb a c); simpl; [split; [discriminate | lia] | exact IH].
Qed.

Lemma count_le_length (c : ascii) (s : string) :
  (Bytes.count c s <= String.length s)%nat.
Proof.
  induction s as [|a s IH]; simpl; [lia|]. destruct (Ascii.eqb a c); lia.
Qed.

Lemma countFrom_step (c a : ascii) (s : string) (fuel : nat) :
  Ascii.eqb a c = false ->
  countFrom (S fuel) (String a s) (String c "")
  = countFrom (S fuel) s (String c "").
Proof.
  intros E. cbn [countFrom]. rewrite (Index_eq (String a s)).
  rewrite HasPrefix_cons, E. cbn [andb].
  pose proof (Index_ge s (String c "")) as G.
  destruct (Index s (String c "") <? 0) eqn:E2; [reflexivity|].
  destruct (Index s (String c "") + 1 <? 0) eqn:E3; [lia|].
  change (len (String c "")) with 1.
  now rewrite slice_from_cons by lia.
Qed.

(** [Count] of a one-byte string is the number of occurrences of that byte. *)
Lemma countFrom_count (c : ascii) (s : string) (fuel : nat) :
  (String.length s <= fuel)%nat ->
  countFrom fuel s (String c "") = Z.of_nat (Bytes.count c s).
Proof.
  revert fuel. induction s as [|a s IH]; intros fuel L.
  - destruct fuel; cbn [countFrom]; [reflexivity|].
    rewrite Index_eq, HasPrefix_empty. reflexivity.
  - destruct fuel as [|fuel]; [simpl in L; lia|]. simpl in L.
    cbn [Bytes.count]. destruct (Ascii.eqb a c) eqn:E.
    + cbn [countFrom]. rewrite Index_eq, HasPrefix_cons, HasPrefix_nil, E.
      cbn [andb]. change (0 <? 0) with false. cbv iota.
      change (slice_from (String a s) (0 + len (String c ""))) with s.
      rewrite IH by lia. lia.
    + rewrite countFrom_step by exact E. apply IH. lia.
Qed.

Lemma Count_count (c : ascii) (s : string) :
  Count s (String c "") = Z.of_nat (Bytes.count c s).
Proof. unfold Count. now apply countFrom_count. Qed.

Lemma Join_cons_nonempty (a : string) (l : list string) (sep : string) :
  l <> [] -> Join (a :: l) sep = a ++ sep ++ Join l sep.
Proof. destruct l; [congruence | reflexivity]. Qed.

Lemma genSplit_spec (c : ascii) (n : nat) (s : string) :
  (Bytes.count c s < n)%nat ->
  Join (genSplit s (String c "") n) (String c "") = s /\
  Forall (fun l => Spec.occurs c l = false) (genSplit s (String c "") n).
Proof.
  revert s. induction n as [|n IH]; intros s L; [lia|].
  destruct n as [|n].
  - simpl. split; [reflexivity|]. constructor; [|constructor].
    apply count_occurs. lia.
  - change (genSplit s (String c "") (S (S n)))
      with (if Index s (String c "") <? 0 then [s]
            else slice_to s (Index s (String c ""))
                 :: genSplit (slice_from s (Index s (String c "") + len (String c "")))
                             (String c "") (S n)).
    destruct (Index s (String c "") <? 0) eqn:E.
    + split; [reflexivity|]. constructor; [|constructor].
      rewrite <- Contains_occurs. unfold Contains.
      destruct (0 <=? Index s (String c "")) eqn:E2; [lia | reflexivity].
    + change (len (String c "")) with 1.
      destruct (Index_cut c s) as [D O]; [lia|].
      set (pre := slice_to s (Index s (String c ""))) in *.
      set (rest := slice_from s (Index s (String c "") + 1)) in *.
      assert (Lr : (Bytes.count c rest < S n)%nat).
      { rewrite D in L. rewrite count_app in L. simpl in L.
        rewrite Ascii.eqb_refl in L. lia. }
      destruct (IH rest Lr) as [J F].
      split.
      * rewrite Join_cons_nonempty by apply genSplit_nonempty.
        rewrite J. symmetry. exact D.
      * constructor; assumption.
Qed.

(** Joining the pieces of [Split(s, ".")] with "." gives [s] back, and no
    piece holds a ".". *)
Lemma Split_spec (s : string) :
  Join (Split s ".") "." = s /\
  Forall (fun l => Contains l "." = false) (Split s ".").
Proof.
  unfold Split, SplitN.
  change (-1 =? 0) with false. change (-1 <? 0) with true. cbv iota zeta.
  rewrite Count_count. pose proof (count_le_length "." s) as L.
  set (n := if len s + 1 <? Z.of_nat (Bytes.count "." s) + 1
            then len s + 1 else Z.of_nat (Bytes.count "." s) + 1).
  assert (B : (Bytes.count "." s < Z.to_nat n)%nat).
  { unfold n, len. destruct (_ <? _); lia. }
  destruct (genSplit_spec "." _ s B) as [J F]. split; [exact J|].
  eapply Forall_impl; [|exact F]. intros l H. now rewrite Contains_occurs.
Qed.

End SplitMore.

(** ** More on [Extract]: what its fields hold *)

Section ExtractMore.

Context `{T : unicode.CaseTables}.

Import strings.

Variable PublicSuffix : string -> string * bool.

Lemma Extract_same_host (a b : string) :
  cleanDomain a = cleanDomain b -> Extract PublicSuffix a = Extract PublicSuffix b.
Proof. intros E. rewrite !Extract_eq. now rewrite E. Qed.

Lemma Join_snoc (l : list string) (x sep : string) :
  l <> [] -> Join (l ++ [x]) sep = Join l sep ++ sep ++ x.
Proof.
  induction l as [|a l IH]; [congruence|]. intros _.
  destruct l as [|b l]; [reflexivity|].
  change ((a :: b :: l) ++ [x])%list with (a :: ((b :: l) ++ [x]))%list.
  rewrite Join_cons_nonempty by (simpl; discriminate).
  rewrite IH by discriminate. rewrite Join_cons2.
  now rewrite !app_assoc_s.
Qed.

Lemma last_Forall {A : Type} (P : A -> Prop) (l : list A) (d : A) :
  l <> [] -> Forall P l -> P (last l d).
Proof.
  intros N F. rewrite (app_removelast_last d N) in F.
  apply Forall_app in F as [_ F]. now inversion F.
Qed.

(** The result on a host made of dot-free labels and the suffix that the
    lookup returns for it. *)
Lemma Extract_shape (s : string) (leading : list string) (label suffix : string) :
  Forall (fun l => Contains l "." = false) leading ->
  Contains label "." = false ->
  cleanDomain s = Join (leading ++ [label]) "." ++ "." ++ suffix ->
  fst (PublicSuffix (cleanDomain s)) = suffix ->
  Extract PublicSuffix s
  = Return (Some (mkResult (Join leading ".") label suffix), None).
Proof.
  intros Fl Hl Hh Hs. rewrite Extract_eq. cbv zeta. rewrite Hs, Hh.
  set (pre := Join (leading ++ [label]) ".").
  destruct (String.eqb (pre ++ "." ++ suffix) suffix) eqn:E.
  - apply String.eqb_eq in E. apply (f_equal String.length) in E.
    rewrite !length_app in E. simpl in E. lia.
  - rewrite (TrimSuffix_app pre ("." ++ suffix)). unfold pre.
    rewrite Split_Join.
    + now rewrite removelast_last, last_last.
    + now destruct leading.
    + apply Forall_app. split; [assumption | now constructor].
Qed.

(** X4: the domain that [Extract] returns is a single label: it never holds
    a ".". *)
Theorem Extract_domain_no_dot (s : string) :
  exists r : Result,
    Extract PublicSuffix s = Return (Some r, None) /\
    Contains (Domain r) "." = false.
Proof.
  rewrite Extract_eq. cbv zeta.
  destruct (String.eqb _ _); eexists; (split; [reflexivity|]); cbn [Domain].
  - reflexivity.
  - set (rest := TrimSuffix _ _).
    destruct (Split_spec rest) as [_ F].
    apply (last_Forall (fun l => Contains l "." = false));
      [apply Split_nonempty | exact F].
Qed.

(** X5: [Extract] loses nothing of the host.  The TLD is what the lookup
    returns and the domain holds no "."; when the host is not the TLD itself,
    what is left of the host once "." and the TLD are trimmed from its end is
    cut at its last ".": subdomain, ".", domain give it back, or, when it
    holds no ".", it is the domain and the subdomain is empty. *)
Theorem Extract_partition (s : string) :
  exists r : Result,
    Extract PublicSuffix s = Return (Some r, None) /\
    TLD r = fst (PublicSuffix (cleanDomain s)) /\
    Contains (Domain r) "." = false /\
    (cleanDomain s <> TLD r ->
     let rest := TrimSuffix (cleanDomain s) ("." ++ TLD r) in
     if Contains rest "."
     then rest = Subdomain r ++ "." ++ Domain r
     else Subdomain r = "" /\ Domain r = rest).
Proof.
  rewrite Extract_eq. cbv zeta.
  destruct (String.eqb _ _) eqn:E; eexists;
    (split; [reflexivity|]); (split; [reflexivity|]); cbn [Subdomain Domain TLD].
  - split; [reflexivity|].
    apply String.eqb_eq in E. intros N. contradiction.
  - set (rest := TrimSuffix _ _).
    destruct (Split_spec rest) as [J F].
    pose proof (Split_nonempty rest ".") as N.
    set (parts := Split rest ".") in *.
    pose proof (app_removelast_last "" N) as D.
    pose proof (last_Forall _ parts "" N F) as Fl. cbv beta in Fl.
    split; [exact Fl|]. intros _.
    destruct (removelast parts) as [|a l] eqn:R.
    + simpl in D. rewrite D in J. simpl in J.
      assert (C : Contains rest "." = false) by (now rewrite <- J).
      rewrite C. split; [reflexivity | exact J].
    + rewrite D in J. rewrite Join_snoc in J by discriminate.
      assert (C : Contains rest "." = true).
      { rewrite <- J. rewrite Contains_occurs, !occurs_app.
        simpl. now rewrite orb_true_r. }
      rewrite C. symmetry. exact J.
Qed.

End ExtractMore.

(** ** Round trips and degenerate hosts *)

Section ExtractRoundTrip.

Context `{T : unicode.CaseTables}.

Import strings.

Lemma Join_head_nonempty (a : string) (l : list string) (sep : string) :
  a <> "" -> Join (a :: l) sep <> "".
Proof.
  intros N. destruct a as [|c a]; [congruence|].
  destruct l; simpl; discriminate.
Qed.

Lemma eqb_empty_false (a : string) : a <> "" -> String.eqb a "" = false.
Proof. intros N. now apply String.eqb_neq. Qed.

Lemma normalize_after_scheme (pre h : string) :
  Contains pre "://" = false -> Contains h ":" = false ->
  Spec.normalize (pre ++ "://" ++ h) = Spec.normalize h.
Proof.
  intros Hp Hc. rewrite Contains_occurs in Hc. unfold Spec.normalize.
  rewrite strip_scheme_first by exact Hp.
  now rewrite (strip_scheme_id h) by exact Hc.
Qed.

(** X6: for a host without empty labels, [FQDN] of what [Extract] returns is
    the normalised host again: both when the host is N non-empty dot-free
    labels, a non-empty dot-free label and a non-empty suffix that the lookup
    returns for it, and when the host is itself the suffix that the lookup
    returns. *)
Theorem Extract_FQDN_round_trip (PublicSuffix : string -> string * bool) :
  (forall s leading label suffix,
      Forall (fun l => Contains l "." = false /\ l <> "") leading ->
      Contains label "." = false -> label <> "" -> suffix <> "" ->
      cleanDomain s = Join (leading ++ [label]) "." ++ "." ++ suffix ->
      fst (PublicSuffix (cleanDomain s)) = suffix ->
      exists r, Extract PublicSuffix s = Return (Some r, None) /\
                Result_FQDN r = cleanDomain s) /\
  (forall s,
      fst (PublicSuffix (cleanDomain s)) = cleanDomain s ->
      exists r, Extract PublicSuffix s = Return (Some r, None) /\
                Result_FQDN r = cleanDomain s).
Proof.
  split.
  - intros s leading label suffix Fl Hl Nl Ns Hh Hs.
    assert (Fd : Forall (fun l => Contains l "." = false) leading).
    { eapply Forall_impl; [|exact Fl]. now intros l [H _]. }
    rewrite (Extract_shape PublicSuffix s leading label suffix Fd Hl Hh Hs).
    eexists. split; [reflexivity|]. rewrite Hh.
    destruct leading as [|a leading].
    + unfold Result_FQDN. cbn [Subdomain Domain TLD].
      rewrite (eqb_empty_false label Nl), (eqb_empty_false suffix Ns).
      reflexivity.
    + assert (Na : a <> "") by (inversion Fl as [|? ? [_ N] _]; exact N).
      rewrite Join_snoc by discriminate.
      unfold Result_FQDN. cbn [Subdomain Domain TLD].
      rewrite (eqb_empty_false label Nl), (eqb_empty_false suffix Ns).
      rewrite (eqb_empty_false _ (Join_head_nonempty a leading "." Na)).
      cbn [negb app].
      change (Join [Join (a :: leading) "."; label; suffix] ".")
        with (Join (a :: leading) "." ++ "." ++ label ++ "." ++ suffix).
      now rewrite !app_assoc_s.
  - intros s Hs. rewrite Extract_eq. cbv zeta. rewrite Hs, String.eqb_refl.
    eexists. split; [reflexivity|].
    unfold Result_FQDN. cbn [Subdomain Domain TLD].
    destruct (cleanDomain s); reflexivity.
Qed.

(** X7: when normalisation leaves nothing of the input (an empty input, a
    bare scheme, a path or a port alone), [Extract] returns an empty subdomain
    and an empty domain, with whatever the lookup returns for the empty host
    as TLD. *)
Theorem Extract_empty_host (PublicSuffix : string -> string * bool) (s : string) :
  cleanDomain s = "" ->
  Extract PublicSuffix s
  = Return (Some (mkResult "" "" (fst (PublicSuffix ""))), None).
Proof.
  intros E. rewrite Extract_eq. cbv zeta. rewrite E.
  destruct (String.eqb "" (fst (PublicSuffix ""))) eqn:Q; [reflexivity|].
  assert (Tr : TrimSuffix "" ("." ++ fst (PublicSuffix "")) = "").
  { unfold TrimSuffix, HasSuffix. rewrite len_app.
    change (len "") with 0. change (len ".") with 1.
    pose proof (len_nonneg (fst (PublicSuffix ""))).
    destruct (1 + len (fst (PublicSuffix "")) <=? 0) eqn:L; [lia | reflexivity]. }
  rewrite Tr. reflexivity.
Qed.

(** X8: a URL extracts like its bare host: when the host part holds no "/"
    and no ":" and the scheme no "://", [Extract] returns on scheme "://" host,
    on scheme "://" host "/" path and on scheme "://" host ":" port-and-path
    what it returns on the host alone. *)
Theorem Extract_url_like_host
    (PublicSuffix : string -> string * bool) (scheme host rest : string) :
  Contains scheme "://" = false ->
  Contains host "/" = false -> Contains host ":" = false ->
  Extract PublicSuffix (scheme ++ "://" ++ host) = Extract PublicSuffix host /\
  Extract PublicSuffix (scheme ++ "://" ++ host ++ "/" ++ rest)
  = Extract PublicSuffix host /\
  Extract PublicSuffix (scheme ++ "://" ++ host ++ ":" ++ rest)
  = Extract PublicSuffix host.
Proof.
  intros Hp Hs Hc.
  assert (Eh : cleanDomain host = ToLower (TrimSuffix host ".")).
  { rewrite cleanDomain_normalize. now apply normalize_clean_host. }
  repeat split; apply Extract_same_host; rewrite Eh, cleanDomain_normalize.
  - rewrite normalize_after_scheme by assumption.
    now apply normalize_clean_host.
  - apply (normalize_host_path _ host rest); auto using strip_scheme_first.
  - apply (normalize_host_port _ host rest); auto using strip_scheme_first.
Qed.

(** X9: how the two accessors relate: without a subdomain and with a TLD,
    [FQDN] is [String]; with all three fields non-empty, [FQDN] is the
    subdomain, ".", and [String]. *)
Theorem FQDN_from_String (r : Result) :
  (Subdomain r = "" -> TLD r <> "" -> Result_FQDN r = Result_String r) /\
  (Subdomain r <> "" -> Domain r <> "" -> TLD r <> "" ->
   Result_FQDN r = Subdomain r ++ "." ++ Result_String r).
Proof.
  destruct r as [[|a sub] [|b dom] [|c tld]]; cbn [Subdomain Domain TLD];
    split; intros; try congruence; reflexivity.
Qed.

(** X10: [FQDN] is empty only when all three fields are, and [String] only
    when domain and TLD are: neither accessor hides a non-empty field behind
    an empty answer. *)
Theorem accessors_empty (r : Result) :
  (Result_FQDN r = "" <-> Subdomain r = "" /\ Domain r = "" /\ TLD r = "") /\
  (Result_String r = "" <-> Domain r = "" /\ TLD r = "").
Proof.
  destruct r as [[|a sub] [|b dom] [|c tld]]; cbn [Subdomain Domain TLD];
    split; split; intros H; try (repeat split; reflexivity);
    try discriminate H; try (destruct H as (H1 & H2 & H3); discriminate);
    try (destruct H as (H1 & H2); discriminate).
Qed.

End ExtractRoundTrip.

(** ** The CSV output of the command *)

Section Csv.

Import strings cmd.

Let q : ascii := "034"%char.

Lemma subst_none (c : ascii) (new s : string) :
  Bytes.count c s = 0%nat -> Bytes.subst c new s = s.
Proof.
  induction s as [|a s IH]; simpl; [reflexivity|].
  destruct (Ascii.eqb a c); [discriminate|]. intros H. now rewrite IH.
Qed.

Lemma Index_present (c : ascii) (s : string) :
  (0 < Bytes.count c s)%nat -> 0 <= Index s (String c "").
Proof.
  intros H. destruct (Spec.occurs c s) eqn:O.
  - rewrite <- Contains_occurs in O. unfold Contains in O.
    now apply Z.leb_le in O.
  - apply count_occurs in O. lia.
Qed.

(** The loop of [Replace], run as often as the byte occurs, replaces each
    occurrence. *)
Lemma replaceLoop_subst (c : ascii) (new s : string) :
  replaceLoop (Bytes.count c s) s (String c "") new = Bytes.subst c new s.
Proof.
  induction s as [|a s IH]; [reflexivity|].
  cbn [Bytes.count Bytes.subst]. destruct (Ascii.eqb a c) eqn:E.
  - cbn [replaceLoop]. rewrite Index_eq, HasPrefix_cons, HasPrefix_nil, E.
    cbn [andb]. rewrite slice_to_0.
    change (slice_from (String a s) (0 + len (String c ""))) with s.
    now rewrite IH.
  - destruct (Bytes.count c s) as [|n] eqn:K.
    + cbn [replaceLoop] in *. now rewrite <- IH.
    + assert (P : 0 <= Index s (String c "")) by (apply Index_present; lia).
      rewrite <- IH. cbn [replaceLoop].
      rewrite (Index_eq (String a s)), HasPrefix_cons, E. cbn [andb].
      destruct (Index s (String c "") <? 0) eqn:E2; [lia|].
      change (len (String c "")) with 1.
      rewrite slice_to_cons by lia.
      rewrite (slice_from_cons a s (Index s (String c "") + 1)) by lia.
      reflexivity.
Qed.

Lemma ReplaceAll_subst (c : ascii) (new s : string) :
  new <> String c "" ->
  ReplaceAll s (String c "") new = Bytes.subst c new s.
Proof.
  intros N. unfold ReplaceAll, Replace.
  assert (E : String.eqb (String c "") new = false)
    by (apply String.eqb_neq; congruence).
  rewrite E. change (-1 =? 0) with false. cbn [orb]. cbv zeta.
  rewrite Count_count.
  destruct (Bytes.count c s) as [|n] eqn:K.
  - change (Z.of_nat 0 =? 0) with true. cbv iota. symmetry. now apply subst_none.
  - assert (Z0 : (Z.of_nat (S n) =? 0) = false) by (apply Z.eqb_neq; lia).
    rewrite Z0. change (-1 <? 0) with true. cbn [orb]. cbv iota.
    rewrite Nat2Z.id, <- K. apply replaceLoop_subst.
Qed.

(** Whether [escapeCSV] quotes the field. *)
Lemma escapeCSV_eq (s : string) :
  escapeCSV s =
  if Spec.occurs "," s || Spec.occurs q s || Spec.occurs "010" s
  then String q (Bytes.subst q (String q (String q "")) s ++ String q "")
  else s.
Proof.
  unfold escapeCSV, dquote, newline. rewrite !Contains_occurs.
  fold q. destruct (_ || _ || _); [|reflexivity].
  rewrite ReplaceAll_subst by discriminate. reflexivity.
Qed.

Lemma plain_unique (t : ascii) (a b R R' : string) :
  Spec.occurs t a = false -> Spec.occurs t b = false ->
  a ++ String t R = b ++ String t R' -> a = b /\ R = R'.
Proof.
  revert b. induction a as [|x a IH]; intros [|y b] Ha Hb E; simpl in *.
  - now inversion E.
  - inversion E; subst. now rewrite Ascii.eqb_refl in Hb.
  - inversion E; subst. now rewrite Ascii.eqb_refl in Ha.
  - inversion E; subst.
    apply orb_false_iff in Ha as [_ Ha]. apply orb_false_iff in Hb as [_ Hb].
    destruct (IH b Ha Hb H1) as [-> ->]. split; reflexivity.
Qed.

(** A quoted body can be read back: doubled quotes are part of it, a single
    quote followed by another byte ends it. *)
Lemma doubled_unique (t : ascii) (a b R R' : string) :
  Ascii.eqb t q = false ->
  Bytes.subst q (String q (String q "")) a ++ String q (String t R)
  = Bytes.subst q (String q (String q "")) b ++ String q (String t R') ->
  a = b /\ R = R'.
Proof.
  intros T. revert b. induction a as [|x a IH]; intros [|y b] E.
  - simpl in E. now inversion E.
  - simpl in E. destruct (Ascii.eqb y q) eqn:Y.
    + simpl in E. inversion E; subst. now rewrite Ascii.eqb_refl in T.
    + simpl in E. inversion E; subst. now rewrite Ascii.eqb_refl in Y.
  - simpl in E. destruct (Ascii.eqb x q) eqn:X.
    + simpl in E. inversion E; subst. now rewrite Ascii.eqb_refl in T.
    + simpl in E. inversion E; subst. now rewrite Ascii.eqb_refl in X.
  - cbn [Bytes.subst] in E.
    destruct (Ascii.eqb x q) eqn:X, (Ascii.eqb y q) eqn:Y.
    + apply Ascii.eqb_eq in X, Y. subst x y.
      simpl in E. inversion E as [E'].
      destruct (IH b E') as [-> ->]. split; reflexivity.
    + simpl in E. inversion E; subst. now rewrite Ascii.eqb_refl in Y.
    + simpl in E. inversion E; subst. now rewrite Ascii.eqb_refl in X.
    + simpl in E. inversion E as [[Exy E']]. subst y.
      destruct (IH b E') as [-> ->]. split; reflexivity.
Qed.

(** An escaped field followed by a comma or a line feed determines the field
    and what follows. *)
Lemma field_unique (t : ascii) (a b R R' : string) :
  t = ","%char \/ t = "010"%char ->
  escapeCSV a ++ String t R = escapeCSV b ++ String t R' ->
  a = b /\ R = R'.
Proof.
  intros Ht. rewrite !escapeCSV_eq.
  assert (Tq : Ascii.eqb t q = false) by (destruct Ht; subst; reflexivity).
  assert (P : forall s, Spec.occurs "," s || Spec.occurs q s || Spec.occurs "010" s = false ->
                        Spec.occurs t s = false /\ Spec.occurs q s = false).
  { intros s H. apply orb_false_iff in H as [H H3].
    apply orb_false_iff in H as [H1 H2]. destruct Ht; subst; auto. }
  destruct (Spec.occurs "," a || Spec.occurs q a || Spec.occurs "010" a) eqn:Sa;
    destruct (Spec.occurs "," b || Spec.occurs q b || Spec.occurs "010" b) eqn:Sb.
  - cbn [append]. rewrite !app_assoc_s. cbn [append].
    intros E. inversion E as [E']. now apply (doubled_unique t).
  - destruct (P b Sb) as [_ Qb]. cbn [append]. intros E.
    destruct b as [|y b]; cbn [append] in E; inversion E; subst.
    + now rewrite Ascii.eqb_refl in Tq.
    + cbn [Spec.occurs] in Qb. now rewrite Ascii.eqb_refl in Qb.
  - destruct (P a Sa) as [_ Qa]. cbn [append]. intros E.
    destruct a as [|x a]; cbn [append] in E; inversion E; subst.
    + now rewrite Ascii.eqb_refl in Tq.
    + cbn [Spec.occurs] in Qa. now rewrite Ascii.eqb_refl in Qa.
  - destruct (P a Sa) as [Ta _], (P b Sb) as [Tb _].
    now apply plain_unique.
Qed.

(** X11: [escapeCSV] loses nothing: two different fields never escape to the
    same text. *)
Theorem escapeCSV_injective (a b : string) :
  escapeCSV a = escapeCSV b -> a = b.
Proof.
  intros E.
  assert (E' : escapeCSV a ++ String "," "" = escapeCSV b ++ String "," "")
    by (now rewrite E).
  apply (field_unique "," a b "" ""); [now left | exact E'].
Qed.

Lemma count_doubled (s : string) :
  Bytes.count q (Bytes.subst q (String q (String q "")) s)
  = (2 * Bytes.count q s)%nat.
Proof.
  induction s as [|a s IH]; [reflexivity|]. cbn [Bytes.subst Bytes.count].
  destruct (Ascii.eqb a q) eqn:E.
  - cbn [append Bytes.count]. rewrite Ascii.eqb_refl, IH. lia.
  - cbn [Bytes.count]. now rewrite E.
Qed.

Lemma length_doubled (s : string) :
  (String.length s
   <= String.length (Bytes.subst q (String q (String q "")) s))%nat.
Proof.
  induction s as [|a s IH]; [simpl; lia|]. cbn [Bytes.subst].
  destruct (Ascii.eqb a q); simpl; lia.
Qed.

(** X12: [escapeCSV] returns a field unchanged exactly when it holds no
    comma, no double quote and no line feed; and the double quotes of its
    output are balanced: none in a field left alone, the two enclosing ones
    and two for each quote of the field otherwise. *)
Theorem escapeCSV_quoting (s : string) :
  (escapeCSV s = s <->
   Contains s "," = false /\ Contains s dquote = false
   /\ Contains s newline = false) /\
  Count (escapeCSV s) dquote
  = if Contains s "," || Contains s dquote || Contains s newline
    then 2 * Count s dquote + 2 else 0.
Proof.
  unfold dquote, newline. rewrite !Count_count, !Contains_occurs, escapeCSV_eq.
  fold q.
  destruct (Spec.occurs "," s) eqn:O1, (Spec.occurs q s) eqn:O2,
           (Spec.occurs "010" s) eqn:O3; cbn [orb];
    (split; [split; [intros E | intros (H1 & H2 & H3); try discriminate] |]);
    try (exfalso; apply (f_equal String.length) in E; simpl in E;
         rewrite length_app in E; pose proof (length_doubled s); simpl in E; lia);
    try (repeat split; reflexivity);
    try (cbn [Bytes.count]; rewrite Ascii.eqb_refl, count_app, count_doubled;
         cbn [Bytes.count]; rewrite Ascii.eqb_refl; lia).
  apply count_occurs in O2. rewrite O2. reflexivity.
Qed.

(** X13: a CSV record can be read back: two records are the same text only
    when the input and the three fields of the result are the same. *)
Theorem csvLine_injective (domain domain' : string) (result result' : Result) :
  csvLine domain result = csvLine domain' result' ->
  domain = domain' /\ result = result'.
Proof.
  unfold csvLine, newline. intros E.
  change ("," ++ ?x) with (String "," x) in E.
  apply field_unique in E as [E0 E]; [|now left].
  change ("," ++ ?x) with (String "," x) in E.
  apply field_unique in E as [E1 E]; [|now left].
  change ("," ++ ?x) with (String "," x) in E.
  apply field_unique in E as [E2 E]; [|now left].
  change ("," ++ ?x) with (String "," x) in E.
  apply field_unique in E as [E3 E]; [|now left].
  split; [exact E0|].
  destruct result, result'. simpl in *. congruence.
Qed.

End Csv.

(** ** One input, one record *)

Section Records.

Context `{T : unicode.CaseTables}.

Import strings cmd.

Variable PublicSuffix : string -> string * bool.
Variable Marshal : JSONOutput -> string.

Lemma Extract_returns (domain : string) :
  exists r : Result, Extract PublicSuffix domain = Return (Some r, None).
Proof.
  rewrite Extract_eq. cbv zeta. destruct (String.eqb _ _); eexists; reflexivity.
Qed.

Lemma record_written (jsonFlag csvFlag : bool) (domain writer : string) (r : Result) :
  Extract PublicSuffix domain = Return (Some r, None) ->
  processDomainWithWriter PublicSuffix Marshal jsonFlag csvFlag domain writer
  = Return (writer
            ++ (if jsonFlag then Marshal (output domain r)
                else if csvFlag then
                  escapeCSV domain ++ "," ++ escapeCSV (Subdomain r) ++ "," ++
                  escapeCSV (Domain r) ++ "," ++ escapeCSV (TLD r) ++ "," ++
                  escapeCSV (Result_FQDN r)
                else Result_String r)
            ++ newline).
Proof.
  intros E. unfold processDomainWithWriter. rewrite E.
  destruct jsonFlag, csvFlag; try reflexivity;
    unfold csvLine; now rewrite !app_assoc_s.
Qed.

(** X14: [processDomainWithWriter] never skips an input and never touches
    what was written before: whatever the flags and the input, it returns
    with the earlier output followed by one record that ends in a line
    feed, the error branch and a nil result being unreachable; without flags
    the record is [String()] of the result. *)
Theorem processDomainWithWriter_appends
    (jsonFlag csvFlag : bool) (domain writer : string) :
  exists (r : Result) (record : string),
    Extract PublicSuffix domain = Return (Some r, None) /\
    processDomainWithWriter PublicSuffix Marshal jsonFlag csvFlag domain writer
    = Return (writer ++ record ++ newline) /\
    (jsonFlag = false -> csvFlag = false -> record = Result_String r).
Proof.
  destruct (Extract_returns domain) as [r E].
  exists r. eexists. split; [exact E|].
  split; [apply (record_written jsonFlag csvFlag domain writer r E)|].
  now intros -> ->.
Qed.

(** X15: with [-json] or [-csv] the record is the same whether the input came
    as an argument ([processDomain]) or as a line of the input stream
    ([processDomainWithWriter]). *)
Theorem processDomain_same_record
    (jsonFlag csvFlag : bool) (domain out : string) :
  jsonFlag || csvFlag = true ->
  processDomain PublicSuffix Marshal jsonFlag csvFlag domain out
  = processDomainWithWriter PublicSuffix Marshal jsonFlag csvFlag domain out.
Proof.
  intros F. unfold processDomain, processDomainWithWriter.
  destruct (Extract PublicSuffix domain) as [[[r|] [e|]]|msg]; try reflexivity.
  destruct jsonFlag, csvFlag; try reflexivity. discriminate.
Qed.

End Records.

(** ** The theorems at concrete inputs, over the Latin tables *)

Section AtConcreteInputs.

Import strings.

Existing Instance unicode.latin.

(** C4 (as stated) fails: normalising "a.." gives "a.", and normalising that
    again gives "a". *)
Lemma cleanDomain_not_idempotent :
  cleanDomain "a.." = "a." /\
  cleanDomain (cleanDomain "a..") = "a" /\
  cleanDomain (cleanDomain "a..") <> cleanDomain "a..".
Proof. vm_compute. repeat split; discriminate. Qed.

(** C2 (as stated) fails: "uk" is a known suffix and "example.co.uk" is the
    leading label "example", the dot-free label "co" and the suffix "uk"; yet
    the longer rule "co.uk" wins, so the domain is "example" and not "co". *)
Lemma known_suffix_not_longest :
  publicsuffix.known_suffix publicsuffix.sample_rules "uk" = true /\
  Forall (fun l => Contains l "." = false) ["example"] /\
  Contains "co" "." = false /\
  cleanDomain "example.co.uk" = Join (["example"] ++ ["co"]) "." ++ "." ++ "uk" /\
  Extract (publicsuffix.PublicSuffix publicsuffix.sample_rules) "example.co.uk"
  = Return (Some (mkResult "" "example" "co.uk"), None) /\
  Extract (publicsuffix.PublicSuffix publicsuffix.sample_rules) "example.co.uk"
  <> Return (Some (mkResult (Join ["example"] ".") "co" "uk"), None).
Proof.
  split; [reflexivity|]. split; [repeat constructor|].
  split; [reflexivity|]. split; [vm_compute; reflexivity|].
  split; [vm_compute; reflexivity|]. vm_compute. discriminate.
Qed.

Lemma Extract_labels_before_suffix_witness :
  Extract (publicsuffix.PublicSuffix publicsuffix.sample_rules)
          "https://API.v2.Example.co.uk:8080/path"
  = Return (Some (mkResult "api.v2" "example" "co.uk"), None).
Proof.
  apply (Extract_labels_before_suffix
           (publicsuffix.PublicSuffix publicsuffix.sample_rules)
           "https://API.v2.Example.co.uk:8080/path"
           ["api"; "v2"] "example" "co.uk").
  - repeat constructor.
  - reflexivity.
  - vm_compute. reflexivity.
  - vm_compute. reflexivity.
Defined.

Lemma Extract_suffix_only_witness :
  Extract (publicsuffix.PublicSuffix publicsuffix.sample_rules) "com"
  = Return (Some (mkResult "" "" "com"), None).
Proof.
  apply (Extract_suffix_only
           (publicsuffix.PublicSuffix publicsuffix.sample_rules) "com").
  vm_compute. reflexivity.
Defined.

Lemma cleanDomain_step_order_witness :
  cleanDomain "Example.COM./a:b?c:d" = "example.com" /\
  cleanDomain "x:y://Example.COM./a:b?c:d" = "example.com" /\
  cleanDomain "x:y://Example.COM:80/a" = "example.com".
Proof.
  destruct cleanDomain_step_order as (_ & H2 & H3 & H4).
  split; [|split].
  - apply (H2 "Example.COM." "a:b?c:d"); reflexivity.
  - apply (H3 "x:y" "Example.COM." "a:b?c:d"); reflexivity.
  - apply (H4 "x:y" "Example.COM:80/a"); reflexivity.
Defined.

Lemma Extract_fallback_last_label_witness :
  exists r : Result,
    Extract (publicsuffix.PublicSuffix publicsuffix.sample_rules) "http://LocalHost:3000/"
    = Return (Some r, None) /\
    TLD r = last (Split (cleanDomain "http://LocalHost:3000/") ".") "" /\
    (Contains (cleanDomain "http://LocalHost:3000/") "." = false ->
     r = mkResult "" "" (cleanDomain "http://LocalHost:3000/")).
Proof.
  apply (Extract_fallback_last_label publicsuffix.sample_rules "http://LocalHost:3000/").
  vm_compute. reflexivity.
Defined.

Lemma accessors_spec_witness :
  Result_String (mkResult "www" "example" "co.uk") = "example.co.uk" /\
  Result_String (mkResult "" "" "com") = "com" /\
  Result_FQDN (mkResult "a" "" "com") = "a.com".
Proof.
  destruct accessors_spec as (H1 & H2 & H3 & _).
  split; [|split].
  - apply (H1 (mkResult "www" "example" "co.uk")). discriminate.
  - apply (H2 (mkResult "" "" "com")). reflexivity.
  - apply (H3 (mkResult "a" "" "com")).
Defined.

Lemma Extract_empty_label_before_suffix_witness :
  Extract (publicsuffix.PublicSuffix publicsuffix.sample_rules) "a..com"
  = Return (Some (mkResult "a" "" "com"), None).
Proof.
  apply (Extract_empty_label_before_suffix
           (publicsuffix.PublicSuffix publicsuffix.sample_rules)).
  vm_compute. reflexivity.
Defined.

Lemma cleanDomain_drops_port_witness :
  cleanDomain "Example.COM.:8080/a/b" = "example.com" /\
  cleanDomain "https://Example.COM.:8080/a/b" = "example.com".
Proof.
  destruct cleanDomain_drops_port as [H1 H2]. split.
  - apply (H1 "Example.COM." "8080/a/b"); reflexivity.
  - apply (H2 "https" "Example.COM." "8080/a/b"); reflexivity.
Defined.

Lemma Extract_partition_witness :
  let lookup := publicsuffix.PublicSuffix publicsuffix.sample_rules in
  let s := "https://a.b.Example.co.uk/x" in
  exists r : Result,
    Extract lookup s = Return (Some r, None) /\
    TLD r = fst (lookup (cleanDomain s)) /\
    strings.Contains (Domain r) "." = false /\
    (cleanDomain s <> TLD r ->
     let rest := strings.TrimSuffix (cleanDomain s) ("." ++ TLD r) in
     if strings.Contains rest "."
     then rest = Subdomain r ++ "." ++ Domain r
     else Subdomain r = "" /\ Domain r = rest).
Proof.
  exact (Extract_partition
           (publicsuffix.PublicSuffix publicsuffix.sample_rules)
           "https://a.b.Example.co.uk/x").
Defined.

Lemma Extract_FQDN_round_trip_witness :
  (exists r, Extract (publicsuffix.PublicSuffix publicsuffix.sample_rules)
                     "HTTPS://Api.V2.Example.co.uk:443/x" = Return (Some r, None) /\
             Result_FQDN r = cleanDomain "HTTPS://Api.V2.Example.co.uk:443/x") /\
  (exists r, Extract (publicsuffix.PublicSuffix publicsuffix.sample_rules)
                     "co.uk" = Return (Some r, None) /\
             Result_FQDN r = cleanDomain "co.uk").
Proof.
  destruct (Extract_FQDN_round_trip
              (publicsuffix.PublicSuffix publicsuffix.sample_rules)) as [H1 H2].
  split.
  - apply (H1 "HTTPS://Api.V2.Example.co.uk:443/x" ["api"; "v2"] "example" "co.uk").
    + repeat constructor; discriminate.
    + reflexivity.
    + discriminate.
    + discriminate.
    + vm_compute. reflexivity.
    + vm_compute. reflexivity.
  - apply (H2 "co.uk"). vm_compute. reflexivity.
Defined.

Lemma Extract_empty_host_witness :
  Extract (publicsuffix.PublicSuffix publicsuffix.sample_rules) "https://:8080/path"
  = Return (Some (mkResult "" ""
              (fst (publicsuffix.PublicSuffix publicsuffix.sample_rules ""))), None).
Proof.
  apply (Extract_empty_host
           (publicsuffix.PublicSuffix publicsuffix.sample_rules)
           "https://:8080/path").
  vm_compute. reflexivity.
Defined.

Lemma Extract_url_like_host_witness :
  Extract (publicsuffix.PublicSuffix publicsuffix.sample_rules)
          ("https" ++ "://" ++ "www.Example.com" ++ ":" ++ "8080/a?b=c:d")
  = Extract (publicsuffix.PublicSuffix publicsuffix.sample_rules) "www.Example.com".
Proof.
  apply (Extract_url_like_host
           (publicsuffix.PublicSuffix publicsuffix.sample_rules)
           "https" "www.Example.com" "8080/a?b=c:d"); reflexivity.
Defined.

Lemma FQDN_from_String_witness :
  Result_FQDN (mkResult "" "example" "co.uk")
  = Result_String (mkResult "" "example" "co.uk") /\
  Result_FQDN (mkResult "www" "example" "co.uk")
  = "www" ++ "." ++ Result_String (mkResult "www" "example" "co.uk").
Proof.
  split.
  - apply (proj1 (FQDN_from_String (mkResult "" "example" "co.uk")));
      [reflexivity | discriminate].
  - apply (proj2 (FQDN_from_String (mkResult "www" "example" "co.uk")));
      discriminate.
Defined.

Lemma csvLine_injective_witness :
  "a,b.com" = "a,b.com" /\ mkResult "" "a,b" "com" = mkResult "" "a,b" "com".
Proof.
  apply (csvLine_injective "a,b.com" "a,b.com"
           (mkResult "" "a,b" "com") (mkResult "" "a,b" "com")).
  reflexivity.
Defined.

Lemma escapeCSV_injective_witness : "a,b" = "a,b".
Proof. apply (escapeCSV_injective "a,b" "a,b"). reflexivity. Defined.

Lemma processDomain_same_record_witness :
  cmd.processDomain (publicsuffix.PublicSuffix publicsuffix.sample_rules)
                cmd.FQDN false true "a,b.example.com" "input,subdomain,domain,tld,fqdn"
  = cmd.processDomainWithWriter (publicsuffix.PublicSuffix publicsuffix.sample_rules)
                cmd.FQDN false true "a,b.example.com" "input,subdomain,domain,tld,fqdn".
Proof.
  apply (processDomain_same_record
           (publicsuffix.PublicSuffix publicsuffix.sample_rules) cmd.FQDN false true).
  reflexivity.
Defined.

Lemma processDomainWithWriter_appends_witness :
  let lookup := publicsuffix.PublicSuffix publicsuffix.sample_rules in
  exists (r : Result) (record : string),
    Extract lookup "www.example.com" = Return (Some r, None) /\
    cmd.processDomainWithWriter lookup cmd.FQDN false false "www.example.com" "x"
    = Return ("x" ++ record ++ cmd.newline) /\
    (false = false -> false = false -> record = Result_String r).
Proof.
  exact (processDomainWithWriter_appends
           (publicsuffix.PublicSuffix publicsuffix.sample_rules) cmd.FQDN
           false false "www.example.com" "x").
Defined.

Lemma cleanDomain_twice_witness :
  cleanDomain (cleanDomain "HTTP://Example.COM../x")
  = TrimSuffix (cleanDomain "HTTP://Example.COM../x") "." /\
  Contains (cleanDomain "HTTP://Example.COM../x") "/" = false /\
  Contains (cleanDomain "HTTP://Example.COM../x") ":" = false /\
  Contains (cleanDomain "HTTP://Example.COM../x") "://" = false /\
  ToLower (cleanDomain "HTTP://Example.COM../x")
  = cleanDomain "HTTP://Example.COM../x" /\
  (cleanDomain (cleanDomain "HTTP://Example.COM../x")
   = cleanDomain "HTTP://Example.COM../x"
   <-> HasSuffix (cleanDomain "HTTP://Example.COM../x") "." = false).
Proof.
  exact (@cleanDomain_twice unicode.latin latin_laws "HTTP://Example.COM../x").
Defined.

Lemma cleanDomain_fixed_point_witness : cleanDomain "example.com" = "example.com".
Proof.
  apply (proj2 (@cleanDomain_fixed_point unicode.latin latin_laws "example.com")).
  repeat split; reflexivity.
Defined.

Lemma cleanDomain_substring_witness :
  len (cleanDomain "https://Example.COM:8080/x") <= len "https://Example.COM:8080/x".
Proof.
  apply (proj2 (cleanDomain_substring "https://Example.COM:8080/x")).
  reflexivity.
Defined.

Lemma Extract_case_insensitive_ascii_witness :
  Extract (publicsuffix.PublicSuffix publicsuffix.sample_rules)
          (ToUpper "https://www.Example.co.uk/Path")
  = Extract (publicsuffix.PublicSuffix publicsuffix.sample_rules)
            "https://www.Example.co.uk/Path".
Proof.
  apply (Extract_case_insensitive_ascii
           (publicsuffix.PublicSuffix publicsuffix.sample_rules)
           "https://www.Example.co.uk/Path").
  reflexivity.
Defined.

(** C5 (as stated) fails on a string that is not ASCII.  The two bytes 196,
    177 are the rune U+0131, the dotless small i, whose upper case is "I"
    while its lower case is itself: [Extract] of that rune followed by ".com"
    has the rune as domain, and [Extract] of the upper-cased input, "I.COM",
    has the domain "i". *)
Lemma Extract_case_sensitive_dotless_i :
  let s := String "196" (String "177" ".com") in
  let lookup := publicsuffix.PublicSuffix publicsuffix.sample_rules in
  utf8.DecodeRuneInString s = (0x131, 2) /\
  ToUpper s = "I.COM" /\
  Extract lookup s
  = Return (Some (mkResult "" (String "196" (String "177" "")) "com"), None) /\
  Extract lookup (ToUpper s) = Return (Some (mkResult "" "i" "com"), None) /\
  Extract lookup s <> Extract lookup (ToUpper s).
Proof.
  vm_compute. repeat split; discriminate.
Qed.

End AtConcreteInputs.
